(** * Timeline service and timeline tree widget (packages/timeline)

    A shallow embedding of [timeline-service.ts]: the provider registry
    and request router of [TimelineService], the per-source aggregate
    store of [TimelineTreeWidget] with its [TimelineAggregate] class,
    the item lookup of [renderNode], the context menu of
    [TimelineItemNode], and the listeners of [TimelineWidget].

    Conventions of the embedding.
    - JavaScript [Map]s are finite maps ([gmap]); the iteration order of
      a [Map] is not represented.
    - [undefined] for an optional value is [None].
    - Timestamps are integers ([Z]): milliseconds since the epoch.
    - Objects outside this file (providers, their event emitters, the
      tree model that renders) are driven through the calls the service
      makes on them; every such call is recorded in the state.
    - An [async] function is cut at its single [await]: the part that
      runs before it and the continuation that runs once the awaited
      promise has settled. *)

From Stdlib Require Import ZArith Lia.
From stdpp Require Import base option list strings gmap fin_maps sorting.

Local Open Scope string_scope.
Local Open Scope list_scope.
Local Open Scope Z_scope.

(** ** Data model *)

(** [interface Command]. *)
Record Command := mkCommand {
  command_command : option string;
  command_title : option string;
  command_tooltip : option string;
  command_arguments : list string;
  command_id : option string;
  command_label : option string
}.

(** [class TimelineItem].  The last field, [source], is not declared by
    the class: it is the property the service adds with an object spread
    in [getTimeline], which a provider's raw object may already carry. *)
Record TimelineItem := mkItem {
  handle : string;
  timestamp : Z;
  label : string;
  id : option string;
  description : option string;
  detail : option string;
  command : option Command;
  contextValue : option string;
  source : option string
}.

(** [interface TimelineChangeEvent]. *)
Record TimelineChangeEvent := mkChange {
  change_id : string;
  change_uri : option string;
  change_reset : bool
}.

(** [interface TimelineProvidersChangeEvent]. *)
Record TimelineProvidersChangeEvent := mkProvidersChange {
  added : option (list string);
  removed : option (list string)
}.

(** The [limit] of [TimelineOptions]: a count or a watermark. *)
Inductive Limit :=
  | LimitCount (n : Z)
  | LimitWatermark (ts : Z) (wid : option string).

(** [interface TimelineOptions]. *)
Record TimelineOptions := mkOptions {
  cursor : option string;
  limit : option Limit
}.

(** [interface Timeline].  [paging] is optional, and so is the [cursor]
    inside it. *)
Record Timeline := mkTimeline {
  timeline_source : string;
  paging : option (option string);
  items : list TimelineItem
}.

(** [timeline.paging?.cursor] *)
Definition paging_cursor (t : Timeline) : option string :=
  match paging t with
  | Some c => c
  | None => None
  end.

(** The part of [URI] the code reads: its scheme, and the rest, which is
    only passed along. *)
Record URI := mkURI {
  scheme : string;
  uri_rest : string
}.

(** How a promise settles. *)
Inductive Settled (A : Type) :=
  | Resolved (a : A)
  | Rejected (reason : string).
Arguments Resolved {A} a.
Arguments Rejected {A} reason.

(** A [Disposable] returned by subscribing to a provider's [onDidChange]
    is identified by a number; a provider's emitter is the list of the
    subscriptions currently attached to it. *)
Definition Disposable := nat.
Definition Listeners := list Disposable.

(** [provider.scheme : string | string[]] *)
Inductive Scheme :=
  | SchemeString (s : string)
  | SchemeArray (l : list string).

(** [interface TimelineProvider].  [provider_obj] stands for the identity
    of the JavaScript object.  [onDidChange] tells whether the optional
    event is present.  [dispose] is the provider's own code: it may
    detach listeners from its own emitter, and it returns normally
    ([true]) or throws ([false]).  [provideTimeline] gives the way the
    returned promise settles. *)
Record TimelineProvider := mkProvider {
  provider_obj : nat;
  provider_id : string;
  provider_label : string;
  provider_scheme : Scheme;
  onDidChange : bool;
  dispose : Listeners -> Listeners * bool;
  provideTimeline : URI -> TimelineOptions -> Settled (option Timeline)
}.

(** [interface TimelineSource]. *)
Record TimelineSource := mkSource {
  source_id : string;
  source_label : string
}.

(** ** TimelineAggregate *)

(** [class TimelineAggregate].  Its [uri] field is declared and never
    assigned. *)
Record TimelineAggregate := mkAggregate {
  agg_items : list TimelineItem;
  agg_source : string;
  agg_cursor : option string
}.

(** [new TimelineAggregate(timeline)] *)
Definition newTimelineAggregate (t : Timeline) : TimelineAggregate :=
  {| agg_items := items t;
     agg_source := timeline_source t;
     agg_cursor := paging_cursor t |}.

(** The comparator [(a, b) => b.timestamp - a.timestamp]. *)
Definition compareFn (a b : TimelineItem) : Z := timestamp b - timestamp a.

(** [Array.prototype.sort] is a stable sort: of two elements the
    comparator does not order strictly, the one that came first stays
    first.  [sort_insert cmp x l] puts [x], which came before all of
    [l], into the sorted [l]. *)
Fixpoint sort_insert {A} (cmp : A -> A -> Z) (x : A) (l : list A) : list A :=
  match l with
  | [] => [x]
  | y :: l' => if (cmp x y <=? 0)%Z then x :: y :: l' else y :: sort_insert cmp x l'
  end.

Fixpoint array_sort {A} (cmp : A -> A -> Z) (l : list A) : list A :=
  match l with
  | [] => []
  | x :: l' => sort_insert cmp x (array_sort cmp l')
  end.

(** [add(items)]: push all, then sort. *)
Definition add (new_items : list TimelineItem) (a : TimelineAggregate) : TimelineAggregate :=
  {| agg_items := array_sort compareFn (agg_items a ++ new_items);
     agg_source := agg_source a;
     agg_cursor := agg_cursor a |}.

(** The setter [set cursor(cursor)]. *)
Definition set_cursor (c : option string) (a : TimelineAggregate) : TimelineAggregate :=
  {| agg_items := agg_items a;
     agg_source := agg_source a;
     agg_cursor := c |}.

(** ** TimelineService *)

(** The state of a [TimelineService], together with what it does to the
    objects around it.  [providers] and [providerSubscriptions] are the
    two private maps.  [emitters] gives, for each provider object, the
    listeners attached to its [onDidChange] event; [next_disposable] is
    the next fresh subscription.  The remaining fields are logs, oldest
    first: what was fired on [onDidChangeProvidersEmitter] and on
    [onDidChangeTimelineEmitter], the provider objects whose [dispose]
    was called, and the calls of [provideTimeline]. *)
Record TimelineService := mkService {
  providers : gmap string TimelineProvider;
  providerSubscriptions : gmap string Disposable;
  emitters : gmap nat Listeners;
  next_disposable : nat;
  providersChanged : list TimelineProvidersChangeEvent;
  timelineChanged : list TimelineChangeEvent;
  disposeCalls : list nat;
  provideCalls : list (nat * URI * TimelineOptions)
}.

Definition newTimelineService : TimelineService :=
  {| providers := ∅; providerSubscriptions := ∅; emitters := ∅;
     next_disposable := 0%nat; providersChanged := []; timelineChanged := [];
     disposeCalls := []; provideCalls := [] |}.

(** The listeners attached to a provider object. *)
Definition listeners_of (obj : nat) (s : TimelineService) : Listeners :=
  default [] (emitters s !! obj).

(** Modelled from the spec: the [Event] of @theia/core, which this file
    only imports.  Calling [provider.onDidChange(listener)] attaches the
    listener to the provider's emitter and returns a fresh [Disposable]
    for it.  The only listener the service ever passes is
    [e => this.onDidChangeTimelineEmitter.fire(e)]. *)
Definition subscribe (obj : nat) (s : TimelineService) : TimelineService * Disposable :=
  let h := next_disposable s in
  ({| providers := providers s;
      providerSubscriptions := providerSubscriptions s;
      emitters := <[obj := listeners_of obj s ++ [h]]> (emitters s);
      next_disposable := S h;
      providersChanged := providersChanged s;
      timelineChanged := timelineChanged s;
      disposeCalls := disposeCalls s;
      provideCalls := provideCalls s |}, h).

(** Modelled from the spec: a provider fires its change event.  Every
    listener attached at that time runs once, and each of them forwards
    the event to [onDidChangeTimelineEmitter]. *)
Definition provider_fires (obj : nat) (e : TimelineChangeEvent) (s : TimelineService)
  : TimelineService :=
  {| providers := providers s;
     providerSubscriptions := providerSubscriptions s;
     emitters := emitters s;
     next_disposable := next_disposable s;
     providersChanged := providersChanged s;
     timelineChanged := timelineChanged s ++ ((λ _, e) <$> listeners_of obj s);
     disposeCalls := disposeCalls s;
     provideCalls := provideCalls s |}.

(** [try { existing.dispose(); } catch { }]: the provider's code runs on
    its own emitter; whether it throws is dropped. *)
Definition dispose_existing (existing : TimelineProvider) (s : TimelineService)
  : TimelineService :=
  let obj := provider_obj existing in
  {| providers := providers s;
     providerSubscriptions := providerSubscriptions s;
     emitters := <[obj := (dispose existing (listeners_of obj s)).1]> (emitters s);
     next_disposable := next_disposable s;
     providersChanged := providersChanged s;
     timelineChanged := timelineChanged s;
     disposeCalls := disposeCalls s ++ [obj];
     provideCalls := provideCalls s |}.

Definition set_providers (m : gmap string TimelineProvider) (s : TimelineService)
  : TimelineService :=
  {| providers := m;
     providerSubscriptions := providerSubscriptions s;
     emitters := emitters s;
     next_disposable := next_disposable s;
     providersChanged := providersChanged s;
     timelineChanged := timelineChanged s;
     disposeCalls := disposeCalls s;
     provideCalls := provideCalls s |}.

Definition set_providerSubscriptions (m : gmap string Disposable) (s : TimelineService)
  : TimelineService :=
  {| providers := providers s;
     providerSubscriptions := m;
     emitters := emitters s;
     next_disposable := next_disposable s;
     providersChanged := providersChanged s;
     timelineChanged := timelineChanged s;
     disposeCalls := disposeCalls s;
     provideCalls := provideCalls s |}.

(** [this.onDidChangeProvidersEmitter.fire(e)] *)
Definition fire_providers (e : TimelineProvidersChangeEvent) (s : TimelineService)
  : TimelineService :=
  {| providers := providers s;
     providerSubscriptions := providerSubscriptions s;
     emitters := emitters s;
     next_disposable := next_disposable s;
     providersChanged := providersChanged s ++ [e];
     timelineChanged := timelineChanged s;
     disposeCalls := disposeCalls s;
     provideCalls := provideCalls s |}.

Definition added_event (i : string) : TimelineProvidersChangeEvent :=
  {| added := Some [i]; removed := None |}.

Definition removed_event (i : string) : TimelineProvidersChangeEvent :=
  {| added := None; removed := Some [i] |}.

(** The [Disposable] that [registerTimelineProvider] returns: a closure
    over [this] and [id] alone. *)
Record Registration := mkRegistration { registration_id : string }.

(** [registerTimelineProvider(provider)] *)
Definition registerTimelineProvider (provider : TimelineProvider) (s : TimelineService)
  : TimelineService * Registration :=
  let i := provider_id provider in
  let s1 := match providers s !! i with
            | Some existing => dispose_existing existing s
            | None => s
            end in
  let s2 := set_providers (<[i := provider]> (providers s1)) s1 in
  let s3 := if onDidChange provider
            then let '(s', h) := subscribe (provider_obj provider) s2 in
                 set_providerSubscriptions (<[i := h]> (providerSubscriptions s')) s'
            else s2 in
  (fire_providers (added_event i) s3, {| registration_id := i |}).

(** The [dispose] of the returned [Disposable]. *)
Definition dispose_registration (r : Registration) (s : TimelineService) : TimelineService :=
  let i := registration_id r in
  fire_providers (removed_event i) (set_providers (delete i (providers s)) s).

(** [unregisterTimelineProvider(id)] *)
Definition unregisterTimelineProvider (i : string) (s : TimelineService) : TimelineService :=
  match providers s !! i with
  | None => s
  | Some _ =>
      let s1 := set_providers (delete i (providers s)) s in
      let s2 := set_providerSubscriptions (delete i (providerSubscriptions s1)) s1 in
      fire_providers (removed_event i) s2
  end.

(** [getSources()] *)
Definition getSources (s : TimelineService) : list TimelineSource :=
  (λ p, {| source_id := provider_id p; source_label := provider_label p |})
    <$> (map_to_list (providers s)).*2.

(** [interface TimelineRequest]; the token is always
    [CancellationToken.None] and is left out. *)
Record TimelineRequest := mkRequest {
  result : Settled (option Timeline);
  request_options : TimelineOptions;
  request_source : string;
  request_uri : URI
}.

(** [item => ({ ...item, source: provider.id })] *)
Definition stamp (i : string) (it : TimelineItem) : TimelineItem :=
  {| handle := handle it; timestamp := timestamp it; label := label it;
     id := id it; description := description it; detail := detail it;
     command := command it; contextValue := contextValue it;
     source := Some i |}.

(** The [.then] callback of [getTimeline]; a rejection passes through. *)
Definition stamp_result (i : string) (r : Settled (option Timeline))
  : Settled (option Timeline) :=
  match r with
  | Resolved None => Resolved None
  | Resolved (Some t) =>
      Resolved (Some {| timeline_source := timeline_source t;
                        paging := paging t;
                        items := stamp i <$> items t |})
  | Rejected e => Rejected e
  end.

(** The two nested [if]s on [provider.scheme]: only a scheme that is a
    string is compared with the URI's. *)
Definition scheme_mismatch (sch : Scheme) (u : URI) : bool :=
  match sch with
  | SchemeString s => bool_decide (s ≠ "*") && bool_decide (s ≠ scheme u)
  | SchemeArray _ => false
  end.

Definition log_provide (c : nat * URI * TimelineOptions) (s : TimelineService)
  : TimelineService :=
  {| providers := providers s;
     providerSubscriptions := providerSubscriptions s;
     emitters := emitters s;
     next_disposable := next_disposable s;
     providersChanged := providersChanged s;
     timelineChanged := timelineChanged s;
     disposeCalls := disposeCalls s;
     provideCalls := provideCalls s ++ [c] |}.

(** [getTimeline(id, uri, options, tokenSource)] *)
Definition getTimeline (i : string) (u : URI) (o : TimelineOptions) (s : TimelineService)
  : TimelineService * option TimelineRequest :=
  match providers s !! i with
  | None => (s, None)
  | Some provider =>
      if scheme_mismatch (provider_scheme provider) u then (s, None)
      else (log_provide (provider_obj provider, u, o) s,
            Some {| result := stamp_result (provider_id provider) (provideTimeline provider u o);
                    request_options := o;
                    request_source := provider_id provider;
                    request_uri := u |})
  end.

(** ** TimelineTreeWidget *)

Definition PAGE_SIZE : Z := 20.

(** One call [this.model.renderTimeline(source, uri.toString(), items, hasMore)]. *)
Record RenderCall := mkRender {
  render_source : string;
  render_uri : URI;
  render_items : list TimelineItem;
  render_hasMore : bool
}.

(** The part of the widget the timeline code uses: the map of aggregates
    (keyed by source alone), the injected service, and the log of calls
    made on the tree model. *)
Record TimelineTreeWidget := mkWidget {
  timelinesBySource : gmap string TimelineAggregate;
  timelineService : TimelineService;
  rendered : list RenderCall
}.

Definition newTimelineTreeWidget (s : TimelineService) : TimelineTreeWidget :=
  {| timelinesBySource := ∅; timelineService := s; rendered := [] |}.

(** [!!cursor] on a [string | undefined]: the empty string is falsy. *)
Definition truthy (c : option string) : bool :=
  match c with
  | Some s => bool_decide (s ≠ "")
  | None => false
  end.

(** What [loadTimelineForSource] holds across its [await]: the local
    variables [source], [uri], [timeline], and the request.  The
    aggregate in [timeline] is held as the value it had when it was
    read; this is the object of the map as long as no other load of the
    same source runs in between, which is the case for an awaited load
    and inside one fan-out, where the sources differ. *)
Record Pending := mkPending {
  pending_source : string;
  pending_uri : URI;
  pending_timeline : option TimelineAggregate;
  pending_request : TimelineRequest
}.

(** [loadTimelineForSource], up to the [await].  [None] when
    [getTimeline] returned [undefined]: the function is then over. *)
Definition loadTimelineForSource_begin (src : string) (u : URI) (reset : bool)
    (w : TimelineTreeWidget) : TimelineTreeWidget * option Pending :=
  let store := if reset then delete src (timelinesBySource w) else timelinesBySource w in
  let timeline := store !! src in
  let c := timeline ≫= agg_cursor in
  let options := {| cursor := if reset then None else c;
                    limit := Some (LimitCount PAGE_SIZE) |} in
  let '(s', timelineRequest) := getTimeline src u options (timelineService w) in
  ({| timelinesBySource := store; timelineService := s'; rendered := rendered w |},
   (λ r, {| pending_source := src; pending_uri := u;
            pending_timeline := timeline; pending_request := r |}) <$> timelineRequest).

(** [loadTimelineForSource], from the [await] on.  The outcome is the
    way the promise of the [async] function settles.  [items], the
    result of an [Array.prototype.map], is always truthy. *)
Definition loadTimelineForSource_resume (p : Pending) (w : TimelineTreeWidget)
  : TimelineTreeWidget * Settled unit :=
  match result (pending_request p) with
  | Rejected e => (w, Rejected e)
  | Resolved None => (w, Resolved ())
  | Resolved (Some timelineResult) =>
      let timeline :=
        match pending_timeline p with
        | Some t => set_cursor (paging_cursor timelineResult) (add (items timelineResult) t)
        | None => newTimelineAggregate timelineResult
        end in
      ({| timelinesBySource := <[pending_source p := timeline]> (timelinesBySource w);
          timelineService := timelineService w;
          rendered := rendered w ++
            [{| render_source := pending_source p;
                render_uri := pending_uri p;
                render_items := agg_items timeline;
                render_hasMore := truthy (agg_cursor timeline) |}] |},
       Resolved ())
  end.

(** [await loadTimelineForSource(source, uri, reset)]: nothing else runs
    between the two parts. *)
Definition loadTimelineForSource (src : string) (u : URI) (reset : bool)
    (w : TimelineTreeWidget) : TimelineTreeWidget * Settled unit :=
  match loadTimelineForSource_begin src u reset w with
  | (w', Some p) => loadTimelineForSource_resume p w'
  | (w', None) => (w', Resolved ())
  end.

(** The loop of [loadTimeLine]: every call of [loadTimelineForSource]
    runs up to its [await] and is not awaited. *)
Fixpoint loadTimeLine_loop (srcs : list string) (u : URI) (reset : bool)
    (w : TimelineTreeWidget) : TimelineTreeWidget * list Pending :=
  match srcs with
  | [] => (w, [])
  | src :: rest =>
      let '(w1, p) := loadTimelineForSource_begin src u reset w in
      let '(w2, ps) := loadTimeLine_loop rest u reset w1 in
      (w2, option_list p ++ ps)
  end.

(** [loadTimeLine(uri, reset)]: the state when the loop is over, and the
    calls still waiting for their provider. *)
Definition loadTimeLine (u : URI) (reset : bool) (w : TimelineTreeWidget)
  : TimelineTreeWidget * list Pending :=
  loadTimeLine_loop (source_id <$> getSources (timelineService w)) u reset w.

(** The waiting calls resume one at a time, in the order [order] in
    which their promises settle; the outcomes are those of the floating
    promises. *)
Fixpoint settle (order : list Pending) (w : TimelineTreeWidget)
  : TimelineTreeWidget * list (string * Settled unit) :=
  match order with
  | [] => (w, [])
  | p :: rest =>
      let '(w1, r) := loadTimelineForSource_resume p w in
      let '(w2, rs) := settle rest w1 in
      (w2, (pending_source p, r) :: rs)
  end.

(** ** Predicates of the specification *)

(** Sorted by [timestamp], most recent first. *)
Definition sorted_desc (l : list TimelineItem) : Prop :=
  Sorted (λ a b, timestamp a >= timestamp b) l.

Fixpoint sorted_descb (l : list TimelineItem) : bool :=
  match l with
  | a :: (b :: _) as l' => (timestamp b <=? timestamp a) && sorted_descb l'
  | _ => true
  end.

(** Every item carries the source [k]. *)
Definition stamped_with (k : string) (l : list TimelineItem) : Prop :=
  Forall (λ it, source it = Some k) l.

(** Every aggregate of the widget holds only items of its own key. *)
Definition aggregates_stamped (w : TimelineTreeWidget) : Prop :=
  ∀ k a, timelinesBySource w !! k = Some a → stamped_with k (agg_items a).

(** Every provider is stored under its own [id], as
    [registerTimelineProvider] stores it. *)
Definition registry_wf (s : TimelineService) : Prop :=
  ∀ k p, providers s !! k = Some p → provider_id p = k.

(** A service call made through the widget's injected service. *)
Definition on_service (f : TimelineService → TimelineService) (w : TimelineTreeWidget)
  : TimelineTreeWidget :=
  {| timelinesBySource := timelinesBySource w;
     timelineService := f (timelineService w);
     rendered := rendered w |}.

(** The states a widget and its service go through when they are driven
    from outside: providers come and go, single pages are loaded and
    awaited, and [loadTimeLine] fans out with its calls resuming in any
    order. *)
Inductive reachable : TimelineTreeWidget → Prop :=
  | reach_new : reachable (newTimelineTreeWidget newTimelineService)
  | reach_register w p :
      reachable w → reachable (on_service (λ s, (registerTimelineProvider p s).1) w)
  | reach_unregister w i :
      reachable w → reachable (on_service (unregisterTimelineProvider i) w)
  | reach_revoke w r :
      reachable w → reachable (on_service (dispose_registration r) w)
  | reach_fires w obj e :
      reachable w → reachable (on_service (provider_fires obj e) w)
  | reach_loadForSource w src u reset :
      reachable w → reachable (loadTimelineForSource src u reset w).1
  | reach_loadTimeLine w u reset order :
      reachable w → order ≡ₚ (loadTimeLine u reset w).2 →
      reachable (settle order (loadTimeLine u reset w).1).1.

(** What a waiting call carries is stamped with its own source. *)
Definition pending_ok (p : Pending) : Prop :=
  (∀ a, pending_timeline p = Some a → stamped_with (pending_source p) (agg_items a))
  ∧ (∀ t, result (pending_request p) = Resolved (Some t) →
          stamped_with (pending_source p) (items t)).

Global Instance registry_wf_dec s : Decision (registry_wf s).
Proof.
  change (Decision (map_Forall (λ k p, provider_id p = k) (providers s))).
  apply _.
Defined.

Definition widget_inv (w : TimelineTreeWidget) : Prop :=
  registry_wf (timelineService w) ∧ aggregates_stamped w.

(** The options [loadTimelineForSource] sends after a reset or for a
    source without aggregate. *)
Definition first_page_options : TimelineOptions :=
  {| cursor := None; limit := Some (LimitCount PAGE_SIZE) |}.

(** The emitters once the provider registered before, if any, has run
    its [dispose]. *)
Definition emitters_after_dispose (i : string) (s : TimelineService) : gmap nat Listeners :=
  match providers s !! i with
  | Some existing =>
      <[provider_obj existing :=
          (dispose existing (listeners_of (provider_obj existing) s)).1]> (emitters s)
  | None => emitters s
  end.

(** The way the promise of a waiting call settles, and the aggregate it
    stores when a page arrives: both are fixed by what the call holds. *)
Definition outcome_of (p : Pending) : Settled unit :=
  match result (pending_request p) with
  | Rejected e => Rejected e
  | Resolved _ => Resolved ()
  end.

Definition stored_by (p : Pending) : option TimelineAggregate :=
  match result (pending_request p) with
  | Resolved (Some t) =>
      Some (match pending_timeline p with
            | Some a => set_cursor (paging_cursor t) (add (items t) a)
            | None => newTimelineAggregate t
            end)
  | _ => None
  end.

(** ** Sample data *)

Definition item_at (t : Z) : TimelineItem :=
  {| handle := "h"; timestamp := t; label := "change"; id := None;
     description := None; detail := None; command := None;
     contextValue := None; source := None |}.

Definition file_uri : URI := {| scheme := "file"; uri_rest := "///a.txt" |}.
Definition http_uri : URI := {| scheme := "http"; uri_rest := "//host/a.txt" |}.
Definition other_file_uri : URI := {| scheme := "file"; uri_rest := "///b.txt" |}.

(** A provider whose answer depends on the cursor alone. *)
Definition make_provider (obj : nat) (i : string) (sch : Scheme) (evt : bool)
    (disp : Listeners → Listeners * bool)
    (f : option string → Settled (option Timeline)) : TimelineProvider :=
  {| provider_obj := obj; provider_id := i; provider_label := i;
     provider_scheme := sch; onDidChange := evt; dispose := disp;
     provideTimeline := λ _ o, f (cursor o) |}.

(** A [dispose] that throws at once, and one that detaches everything. *)
Definition dispose_throws : Listeners → Listeners * bool := λ l, (l, false).
Definition dispose_detaches : Listeners → Listeners * bool := λ _, ([], true).

Definition page (src : string) (c : option string) (ts : list Z) : Timeline :=
  {| timeline_source := src; paging := Some c; items := item_at <$> ts |}.

(** First page [100, 300] with cursor [c1]; every later page is empty. *)
Definition unsorted_provider : TimelineProvider :=
  make_provider 0 "git" (SchemeString "file") true dispose_throws
    (λ c, match c with
          | None => Resolved (Some (page "git" (Some "c1") [100; 300]))
          | Some _ => Resolved (Some (page "git" (Some "c2") []))
          end).

(** First page [300, 100] with cursor [c1], second page [250], the end. *)
Definition scenario_provider : TimelineProvider :=
  make_provider 0 "git" (SchemeString "file") true dispose_throws
    (λ c, match c with
          | None => Resolved (Some (page "git" (Some "c1") [300; 100]))
          | Some _ => Resolved (Some (page "git" None [250]))
          end).

(** A provider that names its schemes in an array. *)
Definition array_provider : TimelineProvider :=
  make_provider 0 "git" (SchemeArray ["file"]) false dispose_throws
    (λ _, Resolved (Some (page "git" None [100]))).

(** A provider whose page carries the empty string as cursor. *)
Definition empty_cursor_provider : TimelineProvider :=
  make_provider 0 "git" (SchemeString "*") false dispose_throws
    (λ _, Resolved (Some (page "git" (Some "") [100]))).

(** A provider whose fetch always rejects. *)
Definition failing_provider : TimelineProvider :=
  make_provider 1 "svn" (SchemeString "file") false dispose_throws
    (λ _, Rejected "offline").

(** A provider for [file] that answers one page. *)
Definition working_provider : TimelineProvider :=
  make_provider 2 "hg" (SchemeString "file") false dispose_throws
    (λ _, Resolved (Some (page "hg" None [40; 20]))).

(** A provider that answers its first page and rejects from then on. *)
Definition flaky_provider : TimelineProvider :=
  make_provider 4 "git" (SchemeString "file") false dispose_throws
    (λ c, match c with
          | None => Resolved (Some (page "git" (Some "c1") [300; 100]))
          | Some _ => Rejected "offline"
          end).

(** A second provider object with the id of the first. *)
Definition replacement_provider : TimelineProvider :=
  make_provider 7 "git" (SchemeString "file") true dispose_detaches
    (λ _, Resolved None).

(** A provider that puts a source of its own on its items. *)
Definition spoofing_provider : TimelineProvider :=
  make_provider 3 "git" (SchemeString "*") false dispose_throws
    (λ _, Resolved (Some {| timeline_source := "elsewhere"; paging := None;
                            items := [{| handle := "h"; timestamp := 5; label := "change";
                                         id := None; description := None; detail := None;
                                         command := None; contextValue := None;
                                         source := Some "elsewhere" |}] |})).

Definition service_with (ps : list TimelineProvider) : TimelineService :=
  foldl (λ s p, (registerTimelineProvider p s).1) newTimelineService ps.

Definition widget_with (ps : list TimelineProvider) : TimelineTreeWidget :=
  newTimelineTreeWidget (service_with ps).

Definition change_event : TimelineChangeEvent :=
  {| change_id := "git"; change_uri := None; change_reset := false |}.

(** A widget that already holds two pages of history for [git]. *)
Definition prior_widget : TimelineTreeWidget :=
  (loadTimelineForSource "git" file_uri false
     (loadTimelineForSource "git" file_uri true (widget_with [scenario_provider])).1).1.

(** Two providers for [file]; the first page of [git] is loaded, and its
    next fetch will reject. *)
Definition history_widget : TimelineTreeWidget :=
  (loadTimelineForSource "git" file_uri true
     (widget_with [flaky_provider; working_provider])).1.

(** A widget that loaded one page from a provider that spoofs. *)
Definition spoofed_widget : TimelineTreeWidget :=
  (loadTimelineForSource "git" file_uri true
     (on_service (λ s, (registerTimelineProvider spoofing_provider s).1)
        (newTimelineTreeWidget newTimelineService))).1.

(** ** TimelineTreeWidget.renderNode and TimelineItemNode *)

(** The fields of a [TimelineNode] (declared beside the tree model) that
    [renderNode] reads. *)
Record TimelineNode := mkNode {
  node_source : string;
  node_id : string;
  node_name : option string;
  node_uri : string;
  node_description : option string;
  node_detail : option string;
  node_command : option Command;
  node_commandArgs : list string;
  node_contextValue : option string
}.

(** [TimelineItemNode.Props], without the injected services. *)
Record Props := mkProps {
  props_source : string;
  props_item : option TimelineItem;
  props_uri : string;
  props_name : option string;
  props_label : option string;
  props_title : option string;
  props_command : option Command;
  props_commandArgs : list string;
  props_contextValue : option string
}.

(** [this.timelinesBySource.get(node.source)?.items.find(i => i.id === node.id)] *)
Definition find_item (node : TimelineNode) (w : TimelineTreeWidget) : option TimelineItem :=
  timelinesBySource w !! node_source node
    ≫= λ a, List.find (λ i, bool_decide (id i = Some (node_id node))) (agg_items a).

(** The properties that [renderNode] gives to the [TimelineItemNode]. *)
Definition renderNode (node : TimelineNode) (w : TimelineTreeWidget) : Props :=
  {| props_source := node_source node;
     props_item := find_item node w;
     props_uri := node_uri node;
     props_name := node_name node;
     props_label := node_description node;
     props_title := node_detail node;
     props_command := node_command node;
     props_commandArgs := node_commandArgs node;
     props_contextValue := node_contextValue node |}.

(** [open]: the call of [commandRegistry.executeCommand], if any, with
    the command's [id] and the arguments. *)
Definition TimelineItemNode_open (props : Props) : option (option string * list string) :=
  match props_command props with
  | Some c => Some (command_id c, props_commandArgs props)
  | None => None
  end.

Definition TIMELINE_ITEM_CONTEXT_MENU : list string := ["timeline-item-context-menu"].

(** One call of [contextMenuRenderer.render]: the menu path, the three
    arguments ([source], [uri] and [handle] of the first, [uri] of the
    second, and [source]), and the value that the context key
    [timelineItem] has while the menu is rendered. *)
Record ContextMenuCall := mkMenuCall {
  menu_path : list string;
  menu_arg_source : string;
  menu_arg_uri : string;
  menu_arg_handle : option string;
  menu_second_uri : string;
  menu_third_source : string;
  menu_timelineItem : option string
}.

(** The context key [timelineItem] and the menus rendered so far. *)
Record ContextState := mkContext {
  timelineItem : option string;
  menus : list ContextMenuCall
}.

(** [renderContextMenu]; [throws] tells whether the renderer throws, and
    with what.  The [finally] block runs in both cases. *)
Definition renderContextMenu (props : Props) (throws : option string) (st : ContextState)
  : ContextState * Settled unit :=
  let currentTimelineItem := timelineItem st in
  let st1 := {| timelineItem := props_contextValue props; menus := menus st |} in
  let st2 := {| timelineItem := timelineItem st1;
                menus := menus st1 ++
                  [{| menu_path := TIMELINE_ITEM_CONTEXT_MENU;
                      menu_arg_source := props_source props;
                      menu_arg_uri := props_uri props;
                      menu_arg_handle := handle <$> props_item props;
                      menu_second_uri := props_uri props;
                      menu_third_source := props_source props;
                      menu_timelineItem := timelineItem st1 |}] |} in
  ({| timelineItem := currentTimelineItem; menus := menus st2 |},
   match throws with
   | Some e => Rejected e
   | None => Resolved ()
   end).

(** ** TimelineWidget *)

(** What the main panel holds: an [EditorWidget] with the URI of its
    resource, if it has one, or another widget. *)
Inductive PanelWidget :=
  | EditorWidget (resource : option URI)
  | OtherWidget.

(** The tree widget, and whether it and the empty widget are hidden. *)
Record TimelineWidget := mkTimelineWidget {
  resourceWidget : TimelineTreeWidget;
  resourceWidget_hidden : bool;
  timelineEmptyWidget_hidden : bool
}.

(** [uri?.scheme === 'file'] *)
Definition is_file (ou : option URI) : bool :=
  match ou with
  | Some u => bool_decide (scheme u = "file")
  | None => false
  end.

(** The callback given to [find] over the widgets of the main panel. *)
Definition is_file_editor (wdg : PanelWidget) : bool :=
  match wdg with
  | EditorWidget ou => is_file ou
  | OtherWidget => false
  end.

(** The listener of [editorManager.onCurrentEditorChanged]: the new
    current editor, given by the URI of its resource, or none. *)
Definition onCurrentEditorChanged (editor : option (option URI))
    (mainPanel : list PanelWidget) (tw : TimelineWidget)
  : TimelineWidget * list Pending :=
  match editor with
  | Some ou =>
      match ou with
      | Some u =>
          if bool_decide (scheme u = "file")
          then let '(w', ps) := loadTimeLine u true (resourceWidget tw) in
               ({| resourceWidget := w';
                   resourceWidget_hidden := false;
                   timelineEmptyWidget_hidden := true |}, ps)
          else (tw, [])
      | None => (tw, [])
      end
  | None =>
      match List.find is_file_editor mainPanel with
      | Some _ => (tw, [])
      | None =>
          ({| resourceWidget := resourceWidget tw;
              resourceWidget_hidden := true;
              timelineEmptyWidget_hidden := false |}, [])
      end
  end.

Section Listeners.

(** [new URI(event.uri)]: the parser of @theia/core. *)
Variable parse_uri : string → URI.

(** The listener of [timelineService.onDidChangeTimeline];
    [currentEditor] is [editorManager.currentEditor], given by the URI
    of its resource. *)
Definition onDidChangeTimeline_listener (currentEditor : option (option URI))
    (event : TimelineChangeEvent) (tw : TimelineWidget)
  : TimelineWidget * list Pending :=
  let target :=
    match change_uri event with
    | Some s => if bool_decide (s ≠ "") then Some (parse_uri s)
                else currentEditor ≫= λ ou, ou
    | None => currentEditor ≫= λ ou, ou
    end in
  match target with
  | Some u =>
      let '(w', ps) := loadTimeLine u (change_reset event) (resourceWidget tw) in
      ({| resourceWidget := w';
          resourceWidget_hidden := resourceWidget_hidden tw;
          timelineEmptyWidget_hidden := timelineEmptyWidget_hidden tw |}, ps)
  | None => (tw, [])
  end.

End Listeners.

(** [refreshList] ([reset = true]) and the command [timeline-load-more]
    ([reset = false]): a [loadTimeLine] for the resource of the current
    editor, if there is one. *)
Definition load_current (reset : bool) (currentEditor : option (option URI))
    (w : TimelineTreeWidget) : TimelineTreeWidget * list Pending :=
  match currentEditor ≫= λ ou, ou with
  | Some u => loadTimeLine u reset w
  | None => (w, [])
  end.

Definition refreshList := load_current true.
Definition timeline_load_more := load_current false.

(** Sample nodes and widgets. *)
Definition node_for (src nid : string) : TimelineNode :=
  {| node_source := src; node_id := nid; node_name := None; node_uri := "file:///a.txt";
     node_description := None; node_detail := None; node_command := None;
     node_commandArgs := []; node_contextValue := Some "commit" |}.

Definition item_with_id (i : string) (t : Z) : TimelineItem :=
  {| handle := "h-" +:+ i; timestamp := t; label := "change"; id := Some i;
     description := None; detail := None; command := None;
     contextValue := None; source := None |}.

(** A provider whose items carry ids. *)
Definition identified_provider : TimelineProvider :=
  make_provider 5 "git" (SchemeString "file") false dispose_throws
    (λ _, Resolved (Some {| timeline_source := "git"; paging := None;
                            items := [item_with_id "a" 30; item_at 20;
                                      item_with_id "b" 10] |})).

Definition identified_widget : TimelineTreeWidget :=
  (loadTimelineForSource "git" file_uri true
     (on_service (λ s, (registerTimelineProvider identified_provider s).1)
        (newTimelineTreeWidget newTimelineService))).1.

Definition history_timeline_widget : TimelineWidget :=
  {| resourceWidget := history_widget;
     resourceWidget_hidden := true;
     timelineEmptyWidget_hidden := false |}.

(** The provider of [git] once it is out of reach: every fetch rejects. *)
Definition offline_git_provider : TimelineProvider :=
  make_provider 6 "git" (SchemeString "file") false dispose_throws
    (λ _, Rejected "offline").

(** The widget with two pages of history for [git], after the provider
    that rejects has taken the id. *)
Definition offline_widget : TimelineTreeWidget :=
  on_service (λ s, (registerTimelineProvider offline_git_provider s).1) prior_widget.

(** The same tree widget as [history_timeline_widget], shown. *)
Definition shown_timeline_widget : TimelineWidget :=
  {| resourceWidget := history_widget;
     resourceWidget_hidden := false;
     timelineEmptyWidget_hidden := true |}.

(** * Properties *)

(** ** Sorting *)

Section Sorting.

Implicit Types (x : TimelineItem) (l : list TimelineItem).

Lemma sorted_descb_spec l : sorted_descb l = true ↔ sorted_desc l.
Proof.
  unfold sorted_desc. induction l as [|a [|b l'] IH]; simpl.
  - split; [constructor | done].
  - split; [repeat constructor | done].
  - rewrite andb_true_iff, Z.leb_le, IH. split.
    + intros [Hab Hs]. constructor; [done | constructor; lia].
    + intros Hs. inversion Hs as [|? ? Hs' Hhd]; subst.
      inversion Hhd; subst. split; [lia | done].
Qed.

Lemma sort_insert_perm {A} (cmp : A → A → Z) (a : A) (m : list A) :
  sort_insert cmp a m ≡ₚ a :: m.
Proof.
  induction m as [|b m IH]; simpl; [done |].
  destruct (cmp a b <=? 0); [done |].
  rewrite IH. apply perm_swap.
Qed.

Lemma array_sort_perm {A} (cmp : A → A → Z) (m : list A) :
  array_sort cmp m ≡ₚ m.
Proof.
  induction m as [|a m IH]; simpl; [done |].
  by rewrite sort_insert_perm, IH.
Qed.

Lemma sort_insert_sorted x l :
  sorted_desc l → sorted_desc (sort_insert compareFn x l).
Proof.
  unfold sorted_desc, compareFn. induction 1 as [|y l Hs IH Hhd]; simpl.
  - repeat constructor.
  - destruct (Z.leb_spec (timestamp y - timestamp x) 0).
    + constructor; [by constructor | constructor; lia].
    + constructor; [done |].
      destruct Hhd as [|z l Hyz]; simpl.
      * constructor; lia.
      * destruct (timestamp z - timestamp x <=? 0); constructor; lia.
Qed.

Lemma array_sort_sorted l : sorted_desc (array_sort compareFn l).
Proof.
  induction l as [|x l IH]; simpl; [constructor |].
  by apply sort_insert_sorted.
Qed.

(** Sorting a list that is already in order gives it back: the sort
    is stable and the comparator never asks for a swap. *)
Lemma array_sort_id l : sorted_desc l → array_sort compareFn l = l.
Proof.
  unfold sorted_desc. induction 1 as [|x l Hs IH Hhd]; simpl; [done |].
  rewrite IH. destruct Hhd as [|y l Hxy]; simpl; [done |].
  unfold compareFn. destruct (Z.leb_spec (timestamp y - timestamp x) 0); [done | lia].
Qed.

Lemma array_sort_stamped k l : stamped_with k l → stamped_with k (array_sort compareFn l).
Proof.
  unfold stamped_with. intros H. by rewrite array_sort_perm.
Qed.

End Sorting.

(** ** The aggregate after one page *)

(** What [loadTimelineForSource] leaves under its key when the page
    [t] arrives: a new aggregate, or the old one with the page added. *)
Lemma resume_page p w t :
  result (pending_request p) = Resolved (Some t) →
  timelinesBySource (loadTimelineForSource_resume p w).1 !! pending_source p =
    Some (match pending_timeline p with
          | Some a => set_cursor (paging_cursor t) (add (items t) a)
          | None => newTimelineAggregate t
          end).
Proof.
  intros Hr. unfold loadTimelineForSource_resume. rewrite Hr. simpl.
  by rewrite lookup_insert_eq.
Qed.

(** Appending a page to an aggregate that exists leaves it sorted. *)
Lemma append_sorted p w t a b :
  result (pending_request p) = Resolved (Some t) →
  pending_timeline p = Some a →
  timelinesBySource (loadTimelineForSource_resume p w).1 !! pending_source p = Some b →
  sorted_desc (agg_items b).
Proof.
  intros Hr Ha. rewrite (resume_page _ _ _ Hr), Ha. intros [= <-]. simpl.
  apply array_sort_sorted.
Qed.

(** A first page that the provider sorted seeds a sorted aggregate. *)
Lemma seed_sorted p w t b :
  result (pending_request p) = Resolved (Some t) →
  pending_timeline p = None →
  sorted_desc (items t) →
  timelinesBySource (loadTimelineForSource_resume p w).1 !! pending_source p = Some b →
  sorted_desc (agg_items b).
Proof.
  intros Hr Ha Hs. rewrite (resume_page _ _ _ Hr), Ha. by intros [= <-].
Qed.

(** The scenario of the specification: [300, 100] and cursor [c1], then
    [250] and no cursor. *)
Example scenario_two_pages :
  let w1 := (loadTimelineForSource "git" file_uri true (widget_with [scenario_provider])).1 in
  let w2 := (loadTimelineForSource "git" file_uri false w1).1 in
  (timelinesBySource w1 !! "git" =
     Some {| agg_items := stamp "git" <$> (item_at <$> [300; 100]);
             agg_source := "git"; agg_cursor := Some "c1" |}) ∧
  (timelinesBySource w2 !! "git" =
     Some {| agg_items := stamp "git" <$> (item_at <$> [300; 250; 100]);
             agg_source := "git"; agg_cursor := None |}) ∧
  render_hasMore <$> rendered w2 = [true; false].
Proof. vm_compute. done. Qed.

(** C1.  The aggregate is sorted by descending timestamp after every
    completed load.  The constructor of [TimelineAggregate] keeps the
    first page in the order the provider gave it, and only [add] sorts:
    a first page [100, 300] seeds an aggregate that reads [100, 300],
    which is not in descending order. *)
Theorem C1_first_page_kept_unsorted :
  ∃ a, timelinesBySource
         (loadTimelineForSource "git" file_uri true (widget_with [unsorted_provider])).1
         !! "git" = Some a
       ∧ timestamp <$> agg_items a = [100; 300]
       ∧ ¬ sorted_desc (agg_items a).
Proof.
  eexists. split; [vm_compute; reflexivity |]. split; [reflexivity |].
  rewrite <- sorted_descb_spec. vm_compute. discriminate.
Qed.

(** ** Pages without items, and loads without a page *)

(** An empty page leaves the items of a sorted aggregate as they are and
    stores the cursor of the page. *)
Lemma empty_page_on_sorted p w t a :
  result (pending_request p) = Resolved (Some t) →
  items t = [] →
  pending_timeline p = Some a →
  sorted_desc (agg_items a) →
  timelinesBySource (loadTimelineForSource_resume p w).1 !! pending_source p =
    Some (set_cursor (paging_cursor t) a).
Proof.
  intros Hr Hi Ha Hs. rewrite (resume_page _ _ _ Hr), Ha.
  unfold add, set_cursor. simpl. by rewrite Hi, app_nil_r, array_sort_id.
Qed.

(** Without a reset, [loadTimelineForSource_begin] changes neither the
    aggregates nor the render log. *)
Lemma begin_keeps_store src u w :
  timelinesBySource (loadTimelineForSource_begin src u false w).1 = timelinesBySource w
  ∧ rendered (loadTimelineForSource_begin src u false w).1 = rendered w.
Proof.
  unfold loadTimelineForSource_begin.
  by destruct (getTimeline _ _ _ _) as [s' r].
Qed.

(** A load without reset that is not applicable, or whose provider has
    no result, leaves every aggregate as it was and renders nothing. *)
Lemma load_without_page src u w :
  (∀ p, (loadTimelineForSource_begin src u false w).2 = Some p →
        result (pending_request p) = Resolved None) →
  timelinesBySource (loadTimelineForSource src u false w).1 = timelinesBySource w
  ∧ rendered (loadTimelineForSource src u false w).1 = rendered w.
Proof.
  intros Hp. unfold loadTimelineForSource.
  pose proof (begin_keeps_store src u w) as Hk.
  destruct (loadTimelineForSource_begin src u false w) as [w' [p|]]; simpl in *; [|done].
  unfold loadTimelineForSource_resume. by rewrite (Hp p eq_refl).
Qed.

(** C2.  A fetch that returns zero items leaves the items of an existing
    aggregate unchanged.  [add] sorts even when nothing was pushed, and
    the aggregate seeded from the first page [100, 300] was never
    sorted: the empty second page turns its items into [300, 100]. *)
Theorem C2_empty_page_reorders_items :
  let w1 := (loadTimelineForSource "git" file_uri true (widget_with [unsorted_provider])).1 in
  let w2 := (loadTimelineForSource "git" file_uri false w1).1 in
  provideTimeline unsorted_provider file_uri
    {| cursor := Some "c1"; limit := Some (LimitCount PAGE_SIZE) |}
    = Resolved (Some (page "git" (Some "c2") []))
  ∧ (λ a, timestamp <$> agg_items a) <$> timelinesBySource w1 !! "git" = Some [100; 300]
  ∧ (λ a, timestamp <$> agg_items a) <$> timelinesBySource w2 !! "git" = Some [300; 100]
  ∧ provideCalls (timelineService w2) =
      [(0%nat, file_uri, {| cursor := None; limit := Some (LimitCount PAGE_SIZE) |});
       (0%nat, file_uri, {| cursor := Some "c1"; limit := Some (LimitCount PAGE_SIZE) |})].
Proof. vm_compute. done. Qed.

(** ** getTimeline *)

(** An id that is not registered: no request, and no call of any
    provider. *)
Lemma getTimeline_unknown i u o s :
  providers s !! i = None → getTimeline i u o s = (s, None).
Proof. intros H. unfold getTimeline. by rewrite H. Qed.

(** A provider whose scheme is a string other than the wildcard and
    other than the URI's: no request, and the provider is not called. *)
Lemma getTimeline_string_mismatch i u o s p sch :
  providers s !! i = Some p →
  provider_scheme p = SchemeString sch → sch ≠ "*" → sch ≠ scheme u →
  getTimeline i u o s = (s, None).
Proof.
  intros Hp Hs H1 H2. unfold getTimeline. rewrite Hp, Hs. simpl.
  by rewrite !bool_decide_eq_true_2.
Qed.

(** In every other case the provider is called, exactly once. *)
Lemma getTimeline_invokes i u o s p :
  providers s !! i = Some p →
  scheme_mismatch (provider_scheme p) u = false →
  getTimeline i u o s =
    (log_provide (provider_obj p, u, o) s,
     Some {| result := stamp_result (provider_id p) (provideTimeline p u o);
             request_options := o; request_source := provider_id p;
             request_uri := u |}).
Proof. intros Hp Hs. unfold getTimeline. by rewrite Hp, Hs. Qed.

(** C3.  [getTimeline] answers "not applicable" without calling the
    provider when the scheme set does not contain the URI's scheme.
    The check is made only when [provider.scheme] is a string: a
    provider registered with the array [["file"]] is called for an
    [http] URI, and a request comes back. *)
Theorem C3_array_scheme_invokes_provider :
  let s := service_with [array_provider] in
  let o := {| cursor := None; limit := Some (LimitCount PAGE_SIZE) |} in
  provider_scheme array_provider = SchemeArray ["file"]
  ∧ scheme http_uri = "http"
  ∧ provideCalls (getTimeline "git" http_uri o s).1 = [(0%nat, http_uri, o)]
  ∧ result <$> (getTimeline "git" http_uri o s).2 =
      Some (Resolved (Some {| timeline_source := "git"; paging := Some None;
                              items := [stamp "git" (item_at 100)] |})).
Proof. vm_compute. done. Qed.

(** ** Provenance *)

Lemma stamp_result_stamped i r t :
  stamp_result i r = Resolved (Some t) → stamped_with i (items t).
Proof.
  destruct r as [[t0|]|e]; simpl; intros [= <-]. simpl.
  unfold stamped_with. apply Forall_fmap, Forall_true. done.
Qed.

Lemma getTimeline_providers i u o s :
  providers (getTimeline i u o s).1 = providers s.
Proof.
  unfold getTimeline. destruct (providers s !! i) as [p|]; [|done].
  by destruct (scheme_mismatch _ _).
Qed.

Lemma getTimeline_request i u o s req :
  (getTimeline i u o s).2 = Some req →
  ∃ p, providers s !! i = Some p
       ∧ scheme_mismatch (provider_scheme p) u = false
       ∧ req = {| result := stamp_result (provider_id p) (provideTimeline p u o);
                  request_options := o; request_source := provider_id p;
                  request_uri := u |}.
Proof.
  unfold getTimeline. destruct (providers s !! i) as [p|]; [|done].
  destruct (scheme_mismatch _ _) eqn:Hs; [done |].
  simpl. intros [= <-]. by exists p.
Qed.

(** The registry stays keyed by provider id. *)
Lemma registry_wf_new : registry_wf newTimelineService.
Proof. intros k p. simpl. by rewrite lookup_empty. Qed.

Lemma register_providers p s :
  providers (registerTimelineProvider p s).1 = <[provider_id p := p]> (providers s).
Proof.
  unfold registerTimelineProvider. simpl.
  destruct (onDidChange p); destruct (providers s !! provider_id p); done.
Qed.

Lemma registry_wf_register p s :
  registry_wf s → registry_wf (registerTimelineProvider p s).1.
Proof.
  intros Hwf k q. rewrite register_providers, lookup_insert.
  case_decide; [naive_solver | apply Hwf].
Qed.

Lemma unregister_providers i s :
  providers (unregisterTimelineProvider i s) = delete i (providers s).
Proof.
  unfold unregisterTimelineProvider.
  destruct (providers s !! i) eqn:H; [done |]. by rewrite delete_id.
Qed.

Lemma registry_wf_unregister i s :
  registry_wf s → registry_wf (unregisterTimelineProvider i s).
Proof.
  intros Hwf k q. rewrite unregister_providers.
  intros H%lookup_delete_Some. apply Hwf, H.
Qed.

Lemma registry_wf_revoke r s :
  registry_wf s → registry_wf (dispose_registration r s).
Proof.
  intros Hwf k q. simpl. intros H%lookup_delete_Some. apply Hwf, H.
Qed.

Lemma registry_wf_getTimeline i u o s :
  registry_wf s → registry_wf (getTimeline i u o s).1.
Proof. unfold registry_wf. by rewrite getTimeline_providers. Qed.

Lemma begin_inv src u reset w :
  widget_inv w →
  widget_inv (loadTimelineForSource_begin src u reset w).1
  ∧ ∀ p, (loadTimelineForSource_begin src u reset w).2 = Some p → pending_ok p.
Proof.
  intros [Hwf Hst]. unfold loadTimelineForSource_begin.
  set (store := if reset then delete src (timelinesBySource w) else timelinesBySource w).
  set (o := {| cursor := _; limit := _ |}).
  assert (Hstore : ∀ k a, store !! k = Some a → stamped_with k (agg_items a)).
  { intros k a. subst store. destruct reset; [|apply Hst].
    intros H%lookup_delete_Some. apply Hst, H. }
  pose proof (registry_wf_getTimeline src u o _ Hwf) as Hwf'.
  pose proof (getTimeline_request src u o (timelineService w)) as Hreq.
  destruct (getTimeline src u o (timelineService w)) as [s' r]. simpl in *.
  split; [by split |].
  intros p Hp. destruct r as [req|]; [|done]. simpl in Hp. injection Hp as <-.
  destruct (Hreq req eq_refl) as (q & Hq & _ & ->).
  split; simpl.
  - intros a Ha. by apply Hstore.
  - intros t Ht. rewrite <- (Hwf _ _ Hq). by eapply stamp_result_stamped.
Qed.

Lemma resume_service p w :
  timelineService (loadTimelineForSource_resume p w).1 = timelineService w.
Proof.
  unfold loadTimelineForSource_resume.
  by destruct (result (pending_request p)) as [[t|]|e].
Qed.

Lemma resume_inv p w :
  pending_ok p → widget_inv w → widget_inv (loadTimelineForSource_resume p w).1.
Proof.
  intros [Hold Hnew] [Hwf Hst]. split; [by rewrite resume_service |].
  unfold loadTimelineForSource_resume.
  destruct (result (pending_request p)) as [[t|]|e] eqn:Hr; [|done..].
  intros k a. simpl. rewrite lookup_insert. case_decide as Hk; [|apply Hst].
  subst k. intros [= <-].
  destruct (pending_timeline p) as [a0|] eqn:Ha; simpl.
  - apply array_sort_stamped. apply Forall_app. split; [by apply Hold | by apply Hnew].
  - by apply Hnew.
Qed.

Lemma loop_inv srcs u reset w :
  widget_inv w →
  widget_inv (loadTimeLine_loop srcs u reset w).1
  ∧ Forall pending_ok (loadTimeLine_loop srcs u reset w).2.
Proof.
  revert w. induction srcs as [|src rest IH]; intros w Hw; simpl; [by split |].
  destruct (begin_inv src u reset w Hw) as [Hw1 Hp].
  destruct (loadTimelineForSource_begin src u reset w) as [w1 p]. simpl in *.
  destruct (IH w1 Hw1) as [Hw2 Hps].
  destruct (loadTimeLine_loop rest u reset w1) as [w2 ps]. simpl in *.
  split; [done |]. apply Forall_app. split; [|done].
  destruct p as [p|]; simpl; [|constructor].
  constructor; [by apply Hp | constructor].
Qed.

Lemma settle_inv order w :
  Forall pending_ok order → widget_inv w → widget_inv (settle order w).1.
Proof.
  revert w. induction order as [|p rest IH]; intros w Hps Hw; simpl; [done |].
  inversion Hps as [|? ? Hp Hrest]; subst.
  pose proof (resume_inv p w Hp Hw) as Hw1.
  destruct (loadTimelineForSource_resume p w) as [w1 r]. simpl in *.
  specialize (IH w1 Hrest Hw1).
  by destruct (settle rest w1) as [w2 rs].
Qed.

Lemma reachable_inv w : reachable w → widget_inv w.
Proof.
  induction 1 as [|w p _ [Hwf Hst]|w i _ [Hwf Hst]|w r _ [Hwf Hst]
                  |w obj e _ [Hwf Hst]|w src u reset _ IH|w u reset order _ IH Hperm].
  - split; [apply registry_wf_new |]. intros k a. simpl. by rewrite lookup_empty.
  - split; [by apply registry_wf_register | done].
  - split; [by apply registry_wf_unregister | done].
  - split; [by apply registry_wf_revoke | done].
  - by split.
  - unfold loadTimelineForSource.
    destruct (begin_inv src u reset w IH) as [Hw1 Hp].
    destruct (loadTimelineForSource_begin src u reset w) as [w1 [p|]]; simpl in *; [|done].
    apply resume_inv; [by apply Hp | done].
  - unfold loadTimeLine in *.
    destruct (loop_inv (source_id <$> getSources (timelineService w)) u reset w IH)
      as [Hw1 Hps].
    apply settle_inv; [|done]. by rewrite Hperm.
Qed.

(** C4.  Every item of every page that [getTimeline] hands back carries
    the id of the provider that produced it in its [source], whatever
    the provider had put there; and so does every item of every
    aggregate, under the key of that provider. *)
Theorem C4_source_is_provider_id :
  (∀ s i u o req t,
     (getTimeline i u o s).2 = Some req →
     result req = Resolved (Some t) →
     ∃ p raw, providers s !! i = Some p
              ∧ provideTimeline p u o = Resolved (Some raw)
              ∧ items t = stamp (provider_id p) <$> items raw
              ∧ stamped_with (provider_id p) (items t))
  ∧ (∀ w, reachable w →
       registry_wf (timelineService w)
       ∧ ∀ k a, timelinesBySource w !! k = Some a → stamped_with k (agg_items a)).
Proof.
  split.
  - intros s i u o req t Hreq Hres.
    destruct (getTimeline_request _ _ _ _ _ Hreq) as (p & Hp & _ & ->).
    simpl in Hres. exists p.
    destruct (provideTimeline p u o) as [[raw|]|e] eqn:Hraw; simpl in Hres; try done.
    exists raw. injection Hres as <-. simpl. repeat split; try done.
    unfold stamped_with. apply Forall_fmap, Forall_true. done.
  - intros w Hw. apply reachable_inv, Hw.
Qed.

Lemma C4_source_is_provider_id_witness :
  (∃ p raw,
     providers (service_with [spoofing_provider]) !! "git" = Some p
     ∧ provideTimeline p file_uri first_page_options = Resolved (Some raw)
     ∧ items {| timeline_source := "elsewhere"; paging := None;
                items := stamp "git" <$> [item_at 5] |}
       = stamp (provider_id p) <$> items raw
     ∧ stamped_with (provider_id p)
         (items {| timeline_source := "elsewhere"; paging := None;
                   items := stamp "git" <$> [item_at 5] |}))
  ∧ (registry_wf (timelineService spoofed_widget)
     ∧ ∀ k a, timelinesBySource spoofed_widget !! k = Some a →
              stamped_with k (agg_items a)).
Proof.
  split.
  - eapply (proj1 C4_source_is_provider_id (service_with [spoofing_provider])
              "git" file_uri first_page_options); reflexivity.
  - apply (proj2 C4_source_is_provider_id spoofed_widget).
    apply reach_loadForSource, reach_register, reach_new.
Defined.

(** ** Reset *)

(** C5.  A load with [reset = true] drops the aggregate of the source
    before it fetches, asks the provider without a cursor, and when the
    page [t] comes back the source holds an aggregate made of that
    page's items (as [getTimeline] hands them back) and that page's
    cursor, whatever was there before. *)
Theorem C5_reset_then_page w src u p t :
  providers (timelineService w) !! src = Some p →
  scheme_mismatch (provider_scheme p) u = false →
  provideTimeline p u first_page_options = Resolved (Some t) →
  timelinesBySource (loadTimelineForSource_begin src u true w).1
    = delete src (timelinesBySource w)
  ∧ provideCalls (timelineService (loadTimelineForSource src u true w).1)
    = provideCalls (timelineService w) ++ [(provider_obj p, u, first_page_options)]
  ∧ timelinesBySource (loadTimelineForSource src u true w).1
    = <[src := {| agg_items := stamp (provider_id p) <$> items t;
                  agg_source := timeline_source t;
                  agg_cursor := paging_cursor t |}]> (timelinesBySource w)
  ∧ (loadTimelineForSource src u true w).2 = Resolved ().
Proof.
  intros Hp Hs Ht.
  unfold loadTimelineForSource, loadTimelineForSource_begin.
  rewrite lookup_delete_eq. simpl. fold first_page_options.
  rewrite (getTimeline_invokes _ _ _ _ _ Hp Hs). simpl.
  unfold loadTimelineForSource_resume. simpl. rewrite Ht. simpl.
  rewrite insert_delete_eq. done.
Qed.

Lemma C5_reset_then_page_witness :
  timelinesBySource (loadTimelineForSource_begin "git" file_uri true prior_widget).1
    = delete "git" (timelinesBySource prior_widget)
  ∧ provideCalls (timelineService (loadTimelineForSource "git" file_uri true prior_widget).1)
    = provideCalls (timelineService prior_widget)
        ++ [(provider_obj scenario_provider, file_uri, first_page_options)]
  ∧ timelinesBySource (loadTimelineForSource "git" file_uri true prior_widget).1
    = <[ "git" := {| agg_items := stamp (provider_id scenario_provider)
                                    <$> items (page "git" (Some "c1") [300; 100]);
                     agg_source := timeline_source (page "git" (Some "c1") [300; 100]);
                     agg_cursor := paging_cursor (page "git" (Some "c1") [300; 100]) |}]>
        (timelinesBySource prior_widget)
  ∧ (loadTimelineForSource "git" file_uri true prior_widget).2 = Resolved ().
Proof.
  apply (C5_reset_then_page prior_widget "git" file_uri scenario_provider
           (page "git" (Some "c1") [300; 100])); reflexivity.
Defined.

(** ** The registry *)

(** The fields of the service after [registerTimelineProvider]. *)
Lemma register_providersChanged p s :
  providersChanged (registerTimelineProvider p s).1
    = providersChanged s ++ [added_event (provider_id p)].
Proof.
  unfold registerTimelineProvider. simpl.
  destruct (onDidChange p); destruct (providers s !! provider_id p); done.
Qed.

Lemma register_timelineChanged p s :
  timelineChanged (registerTimelineProvider p s).1 = timelineChanged s.
Proof.
  unfold registerTimelineProvider. simpl.
  destruct (onDidChange p); destruct (providers s !! provider_id p); done.
Qed.

Lemma register_disposeCalls p s :
  disposeCalls (registerTimelineProvider p s).1
    = disposeCalls s ++ match providers s !! provider_id p with
                        | Some existing => [provider_obj existing]
                        | None => []
                        end.
Proof.
  unfold registerTimelineProvider. simpl.
  destruct (onDidChange p); destruct (providers s !! provider_id p); simpl;
    by rewrite ?app_nil_r.
Qed.

Lemma register_subscriptions p s :
  providerSubscriptions (registerTimelineProvider p s).1
    = if onDidChange p
      then <[provider_id p := next_disposable s]> (providerSubscriptions s)
      else providerSubscriptions s.
Proof.
  unfold registerTimelineProvider. simpl.
  destruct (onDidChange p); destruct (providers s !! provider_id p); done.
Qed.

Lemma register_emitters p s :
  emitters (registerTimelineProvider p s).1
    = if onDidChange p
      then <[provider_obj p :=
               default [] (emitters_after_dispose (provider_id p) s !! provider_obj p)
                 ++ [next_disposable s]]> (emitters_after_dispose (provider_id p) s)
      else emitters_after_dispose (provider_id p) s.
Proof.
  unfold registerTimelineProvider, emitters_after_dispose. simpl.
  destruct (onDidChange p); destruct (providers s !! provider_id p); done.
Qed.

(** The service detaches no listener itself: one that was attached, and
    that the [dispose] of the replaced provider (if any) leaves in place,
    is attached after the registration. *)
Lemma register_keeps_listener p s obj h :
  h ∈ listeners_of obj s →
  (∀ existing, providers s !! provider_id p = Some existing →
               provider_obj existing = obj →
               h ∈ (dispose existing (listeners_of obj s)).1) →
  h ∈ listeners_of obj (registerTimelineProvider p s).1.
Proof.
  intros Hh Hd.
  assert (Hafter : h ∈ default [] (emitters_after_dispose (provider_id p) s !! obj)).
  { unfold emitters_after_dispose.
    destruct (providers s !! provider_id p) as [existing|] eqn:He; [|done].
    rewrite lookup_insert. case_decide as Ho; [|done].
    simpl. subst obj. by apply Hd. }
  unfold listeners_of at 1. rewrite register_emitters.
  destruct (onDidChange p); [|done].
  rewrite lookup_insert. case_decide as Ho; [|done].
  subst obj. simpl. apply elem_of_app. by left.
Qed.

Lemma register_attaches p s :
  onDidChange p = true →
  next_disposable s ∈ listeners_of (provider_obj p) (registerTimelineProvider p s).1.
Proof.
  intros Hev. unfold listeners_of. rewrite register_emitters, Hev.
  rewrite lookup_insert_eq. simpl. apply elem_of_app. right. by apply list_elem_of_singleton.
Qed.

(** A listener forwards what its provider fires. *)
Lemma fires_forwards obj e s h :
  h ∈ listeners_of obj s → e ∈ timelineChanged (provider_fires obj e s).
Proof.
  intros Hh. simpl. apply elem_of_app. right.
  apply list_elem_of_fmap. by exists h.
Qed.

(** C6, as the claim states it, fails: the provider registered first
    has a [dispose] that throws; after a second provider took its id,
    the first subscription is still attached to the first provider, and
    what that provider fires still reaches [onDidChangeTimeline]. *)
Lemma C6_old_subscription_still_delivers :
  provider_id replacement_provider = provider_id unsorted_provider
  ∧ disposeCalls (service_with [unsorted_provider; replacement_provider]) = [0%nat]
  ∧ listeners_of 0 (service_with [unsorted_provider]) = [0%nat]
  ∧ listeners_of 0 (service_with [unsorted_provider; replacement_provider]) = [0%nat]
  ∧ timelineChanged
      (provider_fires 0 change_event
         (service_with [unsorted_provider; replacement_provider])) = [change_event].
Proof. vm_compute. done. Qed.

(** C6, amended.  Registering a provider under an id that is taken calls
    [dispose] on the provider registered before, once, and whether that
    call throws or not the new provider is stored and exactly one
    [added] event for the id is fired, and nothing on the timeline
    channel.  When the new provider has a change event, the entry of the
    id in [providerSubscriptions] is the new subscription.  The
    subscription of the provider registered before is not disposed: a
    listener that this provider's own [dispose] leaves attached is
    still attached, and still forwards what the provider fires. *)
Theorem C6_replace_disposes_provider_and_adds s p existing :
  providers s !! provider_id p = Some existing →
  disposeCalls (registerTimelineProvider p s).1 = disposeCalls s ++ [provider_obj existing]
  ∧ providers (registerTimelineProvider p s).1 = <[provider_id p := p]> (providers s)
  ∧ providersChanged (registerTimelineProvider p s).1
    = providersChanged s ++ [added_event (provider_id p)]
  ∧ timelineChanged (registerTimelineProvider p s).1 = timelineChanged s
  ∧ (onDidChange p = true →
     providerSubscriptions (registerTimelineProvider p s).1 !! provider_id p
       = Some (next_disposable s)
     ∧ next_disposable s ∈ listeners_of (provider_obj p) (registerTimelineProvider p s).1)
  ∧ (∀ h e,
       h ∈ listeners_of (provider_obj existing) s →
       h ∈ (dispose existing (listeners_of (provider_obj existing) s)).1 →
       h ∈ listeners_of (provider_obj existing) (registerTimelineProvider p s).1
       ∧ e ∈ timelineChanged
               (provider_fires (provider_obj existing) e (registerTimelineProvider p s).1)).
Proof.
  intros Hex. split; [|split; [|split; [|split; [|split]]]].
  - by rewrite register_disposeCalls, Hex.
  - apply register_providers.
  - apply register_providersChanged.
  - apply register_timelineChanged.
  - intros Hev. split.
    + rewrite register_subscriptions, Hev. apply lookup_insert_eq.
    + by apply register_attaches.
  - intros h e Hh Hd.
    assert (Hkept : h ∈ listeners_of (provider_obj existing) (registerTimelineProvider p s).1).
    { apply register_keeps_listener; [done |].
      intros ex Hex'. rewrite Hex in Hex'. by injection Hex' as <-. }
    split; [done |]. by eapply fires_forwards.
Qed.

Lemma C6_replace_disposes_provider_and_adds_witness :
  disposeCalls (registerTimelineProvider replacement_provider
                  (service_with [unsorted_provider])).1
    = disposeCalls (service_with [unsorted_provider]) ++ [provider_obj unsorted_provider]
  ∧ providers (registerTimelineProvider replacement_provider
                 (service_with [unsorted_provider])).1
    = <[provider_id replacement_provider := replacement_provider]>
        (providers (service_with [unsorted_provider]))
  ∧ providersChanged (registerTimelineProvider replacement_provider
                        (service_with [unsorted_provider])).1
    = providersChanged (service_with [unsorted_provider])
        ++ [added_event (provider_id replacement_provider)]
  ∧ timelineChanged (registerTimelineProvider replacement_provider
                       (service_with [unsorted_provider])).1
    = timelineChanged (service_with [unsorted_provider])
  ∧ (onDidChange replacement_provider = true →
     providerSubscriptions (registerTimelineProvider replacement_provider
                              (service_with [unsorted_provider])).1
       !! provider_id replacement_provider
       = Some (next_disposable (service_with [unsorted_provider]))
     ∧ next_disposable (service_with [unsorted_provider])
       ∈ listeners_of (provider_obj replacement_provider)
           (registerTimelineProvider replacement_provider
              (service_with [unsorted_provider])).1)
  ∧ (∀ h e,
       h ∈ listeners_of (provider_obj unsorted_provider) (service_with [unsorted_provider]) →
       h ∈ (dispose unsorted_provider
              (listeners_of (provider_obj unsorted_provider)
                 (service_with [unsorted_provider]))).1 →
       h ∈ listeners_of (provider_obj unsorted_provider)
             (registerTimelineProvider replacement_provider
                (service_with [unsorted_provider])).1
       ∧ e ∈ timelineChanged
               (provider_fires (provider_obj unsorted_provider) e
                  (registerTimelineProvider replacement_provider
                     (service_with [unsorted_provider])).1)).
Proof.
  apply (C6_replace_disposes_provider_and_adds (service_with [unsorted_provider])
           replacement_provider unsorted_provider).
  reflexivity.
Defined.

(** C7, as the claim states it, fails: after [unregisterTimelineProvider]
    both maps have lost the id, yet no [dispose] was called, the
    subscription is still attached to the provider, and what the
    provider fires still reaches [onDidChangeTimeline]: the handle was
    released zero times. *)
Lemma C7_unregister_leaves_subscription_attached :
  providerSubscriptions (service_with [unsorted_provider]) !! "git" = Some 0%nat
  ∧ providers (unregisterTimelineProvider "git" (service_with [unsorted_provider])) !! "git"
    = None
  ∧ providerSubscriptions
      (unregisterTimelineProvider "git" (service_with [unsorted_provider])) !! "git" = None
  ∧ disposeCalls (unregisterTimelineProvider "git" (service_with [unsorted_provider])) = []
  ∧ listeners_of 0 (unregisterTimelineProvider "git" (service_with [unsorted_provider]))
    = [0%nat]
  ∧ timelineChanged
      (provider_fires 0 change_event
         (unregisterTimelineProvider "git" (service_with [unsorted_provider])))
    = [change_event].
Proof. vm_compute. done. Qed.

(** C7, amended.  [unregisterTimelineProvider(id)], for an id that is
    registered, removes the provider and the entry of the subscription
    from the two maps and fires one [removed] event; it calls no
    [dispose], and every listener stays attached.  Nor does a
    registration that replaces a provider dispose the subscription: a
    listener that the replaced provider's own [dispose] leaves attached
    stays attached.  The registry releases no subscription handle. *)
Theorem C7_registry_never_disposes_subscription :
  (∀ s i p,
     providers s !! i = Some p →
     providers (unregisterTimelineProvider i s) = delete i (providers s)
     ∧ providerSubscriptions (unregisterTimelineProvider i s)
       = delete i (providerSubscriptions s)
     ∧ providersChanged (unregisterTimelineProvider i s)
       = providersChanged s ++ [removed_event i]
     ∧ emitters (unregisterTimelineProvider i s) = emitters s
     ∧ disposeCalls (unregisterTimelineProvider i s) = disposeCalls s)
  ∧ (∀ s q obj h,
       h ∈ listeners_of obj s →
       (∀ existing, providers s !! provider_id q = Some existing →
                    provider_obj existing = obj →
                    h ∈ (dispose existing (listeners_of obj s)).1) →
       h ∈ listeners_of obj (registerTimelineProvider q s).1).
Proof.
  split.
  - intros s i p Hp. unfold unregisterTimelineProvider. by rewrite Hp.
  - intros s q obj h. apply register_keeps_listener.
Qed.

Lemma C7_registry_never_disposes_subscription_witness :
  (providers (unregisterTimelineProvider "git" (service_with [unsorted_provider]))
     = delete "git" (providers (service_with [unsorted_provider]))
   ∧ providerSubscriptions (unregisterTimelineProvider "git" (service_with [unsorted_provider]))
     = delete "git" (providerSubscriptions (service_with [unsorted_provider]))
   ∧ providersChanged (unregisterTimelineProvider "git" (service_with [unsorted_provider]))
     = providersChanged (service_with [unsorted_provider]) ++ [removed_event "git"]
   ∧ emitters (unregisterTimelineProvider "git" (service_with [unsorted_provider]))
     = emitters (service_with [unsorted_provider])
   ∧ disposeCalls (unregisterTimelineProvider "git" (service_with [unsorted_provider]))
     = disposeCalls (service_with [unsorted_provider]))
  ∧ 0%nat ∈ listeners_of 0
              (registerTimelineProvider replacement_provider
                 (service_with [unsorted_provider])).1.
Proof.
  split.
  - apply (proj1 C7_registry_never_disposes_subscription
             (service_with [unsorted_provider]) "git" unsorted_provider).
    reflexivity.
  - apply (proj2 C7_registry_never_disposes_subscription
             (service_with [unsorted_provider]) replacement_provider 0%nat 0%nat).
    + vm_compute. apply list_elem_of_here.
    + intros existing Hex _. vm_compute in Hex. injection Hex as <-.
      vm_compute. apply list_elem_of_here.
Defined.

Lemma revoke_providersChanged r s :
  providersChanged (dispose_registration r s)
    = providersChanged s ++ [removed_event (registration_id r)].
Proof. done. Qed.

(** C10.  The handle that [registerTimelineProvider] returns holds the
    id and nothing else.  Revoking it deletes whatever provider is
    registered under the id and fires a [removed] event for the id, in
    every state: also when a later registration has taken the id (the
    replacement is removed), and also when the handle was revoked
    before (one more [removed] event each time). *)
Theorem C10_revocation_is_keyed_by_id :
  (∀ s p, (registerTimelineProvider p s).2 = {| registration_id := provider_id p |})
  ∧ (∀ s r,
       providers (dispose_registration r s) = delete (registration_id r) (providers s)
       ∧ providersChanged (dispose_registration r s)
         = providersChanged s ++ [removed_event (registration_id r)])
  ∧ (∀ s p q,
       provider_id q = provider_id p →
       providers (registerTimelineProvider q (registerTimelineProvider p s).1).1
         !! provider_id p = Some q
       ∧ providers
           (dispose_registration (registerTimelineProvider p s).2
              (registerTimelineProvider q (registerTimelineProvider p s).1).1)
           !! provider_id p = None
       ∧ providersChanged
           (dispose_registration (registerTimelineProvider p s).2
              (registerTimelineProvider q (registerTimelineProvider p s).1).1)
         = providersChanged s
             ++ [added_event (provider_id p); added_event (provider_id p);
                 removed_event (provider_id p)])
  ∧ (∀ s r,
       providersChanged (dispose_registration r (dispose_registration r s))
       = providersChanged s
           ++ [removed_event (registration_id r); removed_event (registration_id r)]).
Proof.
  split; [done |]. split; [done |]. split.
  - intros s p q Hid. split; [|split].
    + rewrite register_providers, Hid. apply lookup_insert_eq.
    + simpl. apply lookup_delete_eq.
    + rewrite revoke_providersChanged, !register_providersChanged, Hid, <- !app_assoc.
      done.
  - intros s r. simpl. by rewrite <- app_assoc.
Qed.

Lemma C10_revocation_is_keyed_by_id_witness :
  providers (registerTimelineProvider replacement_provider
               (registerTimelineProvider unsorted_provider newTimelineService).1).1
    !! provider_id unsorted_provider = Some replacement_provider
  ∧ providers
      (dispose_registration (registerTimelineProvider unsorted_provider newTimelineService).2
         (registerTimelineProvider replacement_provider
            (registerTimelineProvider unsorted_provider newTimelineService).1).1)
      !! provider_id unsorted_provider = None
  ∧ providersChanged
      (dispose_registration (registerTimelineProvider unsorted_provider newTimelineService).2
         (registerTimelineProvider replacement_provider
            (registerTimelineProvider unsorted_provider newTimelineService).1).1)
    = providersChanged newTimelineService
        ++ [added_event (provider_id unsorted_provider);
            added_event (provider_id unsorted_provider);
            removed_event (provider_id unsorted_provider)].
Proof.
  apply (proj1 (proj2 (proj2 C10_revocation_is_keyed_by_id))
           newTimelineService unsorted_provider replacement_provider).
  reflexivity.
Defined.

(** ** Has more *)

(** [!!cursor] is true for a cursor that is a string other than the
    empty one, and for no other. *)
Lemma truthy_spec c : truthy c = true ↔ ∃ s, c = Some s ∧ s ≠ "".
Proof.
  destruct c as [s|]; simpl.
  - rewrite bool_decide_eq_true. split; [by exists s | by intros (? & [= <-] & ?)].
  - split; [done | by intros (? & ? & ?)].
Qed.

Lemma begin_source src u reset w pd :
  (loadTimelineForSource_begin src u reset w).2 = Some pd →
  pending_source pd = src ∧ pending_uri pd = u.
Proof.
  unfold loadTimelineForSource_begin.
  destruct (getTimeline _ _ _ _) as [s' [r|]]; simpl; [|done].
  by intros [= <-].
Qed.

Lemma begin_rendered src u reset w :
  rendered (loadTimelineForSource_begin src u reset w).1 = rendered w.
Proof.
  unfold loadTimelineForSource_begin. by destruct (getTimeline _ _ _ _) as [s' r].
Qed.

Lemma begin_store src u reset w :
  timelinesBySource (loadTimelineForSource_begin src u reset w).1
    = if reset then delete src (timelinesBySource w) else timelinesBySource w.
Proof.
  unfold loadTimelineForSource_begin. by destruct (getTimeline _ _ _ _) as [s' r].
Qed.

(** C8, as the claim states it, fails: the page carries the empty string
    as its cursor; the aggregate's cursor is then defined, and the flag
    handed to the tree model is [false]. *)
Lemma C8_empty_cursor_reports_no_more :
  agg_cursor <$>
    timelinesBySource
      (loadTimelineForSource "git" file_uri true (widget_with [empty_cursor_provider])).1
      !! "git" = Some (Some "")
  ∧ render_hasMore <$>
      rendered (loadTimelineForSource "git" file_uri true
                  (widget_with [empty_cursor_provider])).1 = [false].
Proof. vm_compute. done. Qed.

(** C8, amended.  When a load receives a page, with or without items,
    the tree model is handed the items of the aggregate and a "has
    more" flag that is true exactly when the aggregate's cursor after
    that page, which is the page's cursor, is a string other than the
    empty string. *)
Theorem C8_has_more_iff_cursor_nonempty w src u reset pd t :
  (loadTimelineForSource_begin src u reset w).2 = Some pd →
  result (pending_request pd) = Resolved (Some t) →
  ∃ a, timelinesBySource (loadTimelineForSource src u reset w).1 !! src = Some a
       ∧ agg_cursor a = paging_cursor t
       ∧ rendered (loadTimelineForSource src u reset w).1
         = rendered w ++ [{| render_source := src; render_uri := u;
                             render_items := agg_items a;
                             render_hasMore := truthy (agg_cursor a) |}]
       ∧ (truthy (agg_cursor a) = true ↔ ∃ c, agg_cursor a = Some c ∧ c ≠ "").
Proof.
  intros Hb Hr. unfold loadTimelineForSource.
  destruct (begin_source _ _ _ _ _ Hb) as [Hsrc Hu].
  pose proof (begin_rendered src u reset w) as Hrd.
  destruct (loadTimelineForSource_begin src u reset w) as [w1 o]. simpl in *. subst o.
  unfold loadTimelineForSource_resume. rewrite Hr, Hsrc, Hu, Hrd. simpl.
  eexists. rewrite lookup_insert_eq. split; [done |].
  split; [by destruct (pending_timeline pd) |].
  split; [done | apply truthy_spec].
Qed.

Lemma C8_has_more_iff_cursor_nonempty_witness :
  ∃ a, timelinesBySource
         (loadTimelineForSource "git" file_uri false
            (loadTimelineForSource "git" file_uri true (widget_with [unsorted_provider])).1).1
         !! "git" = Some a
       ∧ agg_cursor a = paging_cursor (page "git" (Some "c2") [])
       ∧ rendered
           (loadTimelineForSource "git" file_uri false
              (loadTimelineForSource "git" file_uri true
                 (widget_with [unsorted_provider])).1).1
         = rendered (loadTimelineForSource "git" file_uri true
                       (widget_with [unsorted_provider])).1
             ++ [{| render_source := "git"; render_uri := file_uri;
                    render_items := agg_items a;
                    render_hasMore := truthy (agg_cursor a) |}]
       ∧ (truthy (agg_cursor a) = true ↔ ∃ c, agg_cursor a = Some c ∧ c ≠ "").
Proof.
  eapply (C8_has_more_iff_cursor_nonempty
            (loadTimelineForSource "git" file_uri true (widget_with [unsorted_provider])).1
            "git" file_uri false); reflexivity.
Defined.

(** ** Rejections and the fan-out *)

Section FanOut.

Variables (u : URI) (reset : bool).

Lemma resume_outcome pd w : (loadTimelineForSource_resume pd w).2 = outcome_of pd.
Proof.
  unfold loadTimelineForSource_resume, outcome_of.
  by destruct (result (pending_request pd)) as [[t|]|e].
Qed.

Lemma resume_store pd w :
  timelinesBySource (loadTimelineForSource_resume pd w).1
    = match stored_by pd with
      | Some a => <[pending_source pd := a]> (timelinesBySource w)
      | None => timelinesBySource w
      end.
Proof.
  unfold loadTimelineForSource_resume, stored_by.
  by destruct (result (pending_request pd)) as [[t|]|e].
Qed.

Lemma resume_lookup pd w k :
  timelinesBySource (loadTimelineForSource_resume pd w).1 !! k
    = if decide (pending_source pd = k)
      then from_option Some (timelinesBySource w !! k) (stored_by pd)
      else timelinesBySource w !! k.
Proof.
  rewrite resume_store. destruct (stored_by pd) as [a|]; simpl.
  - rewrite lookup_insert. by case_decide.
  - by case_decide.
Qed.

Lemma getTimeline_request_eq i o s s' :
  providers s = providers s' → (getTimeline i u o s).2 = (getTimeline i u o s').2.
Proof.
  intros Hp. unfold getTimeline. rewrite Hp.
  destruct (providers s' !! i) as [p|]; [|done].
  by destruct (scheme_mismatch _ _).
Qed.

Lemma begin_providers src w :
  providers (timelineService (loadTimelineForSource_begin src u reset w).1)
    = providers (timelineService w).
Proof.
  unfold loadTimelineForSource_begin.
  match goal with |- context [getTimeline ?i ?u ?o ?s] =>
    pose proof (getTimeline_providers i u o s) as Hp;
    destruct (getTimeline i u o s) as [s' r] end.
  done.
Qed.

(** What a call will wait for depends on the providers and on the
    aggregate of its own source alone. *)
Lemma begin_pending_eq src w w' :
  providers (timelineService w) = providers (timelineService w') →
  (if reset then None else timelinesBySource w !! src)
    = (if reset then None else timelinesBySource w' !! src) →
  (loadTimelineForSource_begin src u reset w).2
    = (loadTimelineForSource_begin src u reset w').2.
Proof.
  intros Hp Hst. unfold loadTimelineForSource_begin.
  assert (Hlk : (if reset then delete src (timelinesBySource w) else timelinesBySource w) !! src
                = (if reset then delete src (timelinesBySource w') else timelinesBySource w') !! src).
  { destruct reset; [by rewrite !lookup_delete_eq | done]. }
  rewrite Hlk.
  match goal with |- context [getTimeline ?i ?u ?o (timelineService w)] =>
    pose proof (getTimeline_request_eq i o _ _ Hp) as Hr;
    destruct (getTimeline i u o (timelineService w)) as [s1 r1];
    destruct (getTimeline i u o (timelineService w')) as [s2 r2] end.
  simpl in *. by rewrite Hr.
Qed.

(** The loop of [loadTimeLine]: the providers stay, a reset empties the
    entries of the sources, and every call waits for what it would wait
    for if it were the only one. *)
Lemma loop_spec srcs w :
  providers (timelineService (loadTimeLine_loop srcs u reset w).1)
    = providers (timelineService w)
  ∧ (∀ k, timelinesBySource (loadTimeLine_loop srcs u reset w).1 !! k
          = if decide (k ∈ srcs)
            then (if reset then None else timelinesBySource w !! k)
            else timelinesBySource w !! k)
  ∧ (loadTimeLine_loop srcs u reset w).2
    = omap (λ src, (loadTimelineForSource_begin src u reset w).2) srcs.
Proof.
  revert w. induction srcs as [|src rest IH]; intros w; simpl.
  { split; [done |]. split; [|done]. intros k.
    destruct (decide (k ∈ [])) as [Hk%elem_of_nil|]; done. }
  pose proof (begin_providers src w) as Hp1.
  pose proof (begin_store src u reset w) as Hs1.
  destruct (loadTimelineForSource_begin src u reset w) as [w1 p] eqn:Hb. simpl in *.
  destruct (IH w1) as (Hp2 & Hs2 & Hps).
  destruct (loadTimeLine_loop rest u reset w1) as [w2 ps]. simpl in *.
  split; [congruence |]. split.
  - intros k. rewrite Hs2, Hs1.
    destruct (decide (k = src)) as [->|Hne].
    + rewrite (decide_True (P := src ∈ src :: rest)) by apply list_elem_of_here.
      destruct reset; [|by case_decide].
      rewrite lookup_delete_eq. by case_decide.
    + assert (Hlk : (if reset then delete src (timelinesBySource w) else timelinesBySource w) !! k
                    = timelinesBySource w !! k).
      { destruct reset; [by rewrite lookup_delete_ne | done]. }
      rewrite Hlk.
      destruct (decide (k ∈ rest)) as [Hin|Hnin].
      * by rewrite (decide_True (P := k ∈ src :: rest)) by by apply list_elem_of_further.
      * rewrite (decide_False (P := k ∈ src :: rest)); [done |].
        intros [?|?]%elem_of_cons; done.
  - assert (Hrest : ps = omap (λ src0, (loadTimelineForSource_begin src0 u reset w).2) rest).
    { rewrite Hps. apply list_omap_ext. apply Forall2_same_length_lookup_2; [done |].
      intros i x y Hx Hy. assert (x = y) as <- by congruence.
      apply option_eq. intros pd.
      rewrite (begin_pending_eq x w1 w); [done | congruence |].
      rewrite Hs1. by destruct reset. }
    rewrite Hrest. by destruct p.
Qed.

Lemma settle_outcomes order w :
  (settle order w).2 = (λ pd, (pending_source pd, outcome_of pd)) <$> order.
Proof.
  revert w. induction order as [|pd rest IH]; intros w; simpl; [done |].
  pose proof (resume_outcome pd w) as Ho.
  destruct (loadTimelineForSource_resume pd w) as [w1 r]. simpl in *.
  specialize (IH w1). destruct (settle rest w1) as [w2 rs]. simpl in *.
  by rewrite Ho, IH.
Qed.

Lemma settle_lookup_other order w k :
  (∀ pd, pd ∈ order → pending_source pd ≠ k) →
  timelinesBySource (settle order w).1 !! k = timelinesBySource w !! k.
Proof.
  revert w. induction order as [|pd rest IH]; intros w Hk; simpl; [done |].
  pose proof (resume_lookup pd w k) as Hl.
  destruct (loadTimelineForSource_resume pd w) as [w1 r]. simpl in *.
  specialize (IH w1). destruct (settle rest w1) as [w2 rs]. simpl in *.
  rewrite IH, Hl.
  - rewrite decide_False; [done |]. apply Hk, list_elem_of_here.
  - intros pd' Hpd'. by apply Hk, list_elem_of_further.
Qed.

(** Whatever the order in which the calls resume, a source ends with
    what its own call stores. *)
Lemma settle_lookup_own order w pd :
  NoDup (pending_source <$> order) → pd ∈ order →
  timelinesBySource (settle order w).1 !! pending_source pd
    = from_option Some (timelinesBySource w !! pending_source pd) (stored_by pd).
Proof.
  revert w. induction order as [|q rest IH]; intros w Hnd Hin; [by apply elem_of_nil in Hin |].
  rewrite fmap_cons in Hnd. apply NoDup_cons in Hnd as [Hq Hnd]. simpl.
  pose proof (resume_lookup q w (pending_source pd)) as Hl.
  pose proof (settle_lookup_other rest (loadTimelineForSource_resume q w).1
                (pending_source q)) as Hother.
  destruct (loadTimelineForSource_resume q w) as [w1 r]. simpl in *.
  specialize (IH w1 Hnd).
  destruct (settle rest w1) as [w2 rs]. simpl in *.
  apply elem_of_cons in Hin as [->|Hin].
  - rewrite Hother, Hl; [by rewrite decide_True |].
    intros pd' Hpd' Heq. apply Hq. rewrite <- Heq. by apply list_elem_of_fmap_2.
  - rewrite (IH Hin), Hl. rewrite decide_False; [done |].
    intros Heq. apply Hq. rewrite Heq. by apply list_elem_of_fmap_2.
Qed.

End FanOut.

(** In a registry keyed by provider id, [getSources] lists every
    registered id once. *)
Lemma getSources_ids s :
  registry_wf s → source_id <$> getSources s = (map_to_list (providers s)).*1.
Proof.
  intros Hwf. unfold getSources. rewrite <- !list_fmap_compose.
  apply list_fmap_ext. intros i [k p] Hi. simpl.
  apply Hwf, elem_of_map_to_list, list_elem_of_lookup. by exists i.
Qed.

Lemma getSources_NoDup s : registry_wf s → NoDup (source_id <$> getSources s).
Proof. intros Hwf. rewrite getSources_ids by done. apply NoDup_fst_map_to_list. Qed.

Lemma getSources_elem s k :
  registry_wf s → is_Some (providers s !! k) → k ∈ source_id <$> getSources s.
Proof.
  intros Hwf [p Hp]. rewrite getSources_ids by done.
  apply list_elem_of_fmap. exists (k, p). split; [done |].
  by apply elem_of_map_to_list.
Qed.

Lemma pending_sources_NoDup u reset w srcs :
  NoDup srcs →
  NoDup (pending_source <$>
           omap (λ src, (loadTimelineForSource_begin src u reset w).2) srcs).
Proof.
  induction 1 as [|src rest Hnin Hnd IH]; simpl; [constructor |].
  destruct (loadTimelineForSource_begin src u reset w).2 as [pd|] eqn:Hb; [|done].
  rewrite fmap_cons. apply NoDup_cons. split; [|done].
  destruct (begin_source _ _ _ _ _ Hb) as [-> _].
  intros (pd' & Heq & (src' & Hin & Hb')%list_elem_of_omap)%list_elem_of_fmap.
  destruct (begin_source _ _ _ _ _ Hb') as [Hsrc' _]. congruence.
Qed.

(** One source in the fan-out of [loadTimeLine], whatever happens to the
    calls of the other sources and in whatever order they resume. *)
Lemma fanout_source u reset w order k :
  registry_wf (timelineService w) →
  order ≡ₚ (loadTimeLine u reset w).2 →
  is_Some (providers (timelineService w) !! k) →
  timelinesBySource (settle order (loadTimeLine u reset w).1).1 !! k
    = timelinesBySource (loadTimelineForSource k u reset w).1 !! k
  ∧ (is_Some (loadTimelineForSource_begin k u reset w).2 →
     (k, (loadTimelineForSource k u reset w).2)
       ∈ (settle order (loadTimeLine u reset w).1).2).
Proof.
  intros Hwf Hperm Hk. unfold loadTimeLine in *.
  set (srcs := source_id <$> getSources (timelineService w)) in *.
  destruct (loop_spec u reset srcs w) as (_ & Hstore & Hps).
  assert (Hin : k ∈ srcs) by by apply getSources_elem.
  assert (Hnd : NoDup (pending_source <$> order)).
  { rewrite Hperm, Hps. apply pending_sources_NoDup. by apply getSources_NoDup. }
  assert (Hw1 : timelinesBySource (loadTimeLine_loop srcs u reset w).1 !! k
                = timelinesBySource (loadTimelineForSource_begin k u reset w).1 !! k).
  { rewrite Hstore, decide_True, begin_store by done.
    destruct reset; [by rewrite lookup_delete_eq | done]. }
  unfold loadTimelineForSource.
  destruct (loadTimelineForSource_begin k u reset w) as [wk [pd|]] eqn:Hb; simpl in *.
  - assert (Hb' : (loadTimelineForSource_begin k u reset w).2 = Some pd) by by rewrite Hb.
    destruct (begin_source _ _ _ _ _ Hb') as [Hsrc _].
    assert (Hpd : pd ∈ order).
    { rewrite Hperm, Hps. apply list_elem_of_omap. by exists k. }
    split.
    + rewrite <- Hsrc, (settle_lookup_own order _ pd Hnd Hpd), resume_lookup.
      rewrite decide_True by done. by rewrite Hsrc, Hw1.
    + intros _. rewrite settle_outcomes, resume_outcome.
      apply list_elem_of_fmap. exists pd. by rewrite Hsrc.
  - split; [|by intros [? ?]].
    rewrite settle_lookup_other; [done |].
    intros pd Hpd Hsrc. rewrite Hperm, Hps in Hpd.
    apply list_elem_of_omap in Hpd as (src & _ & Hb').
    destruct (begin_source _ _ _ _ _ Hb') as [Hsrc' _].
    assert (src = k) as -> by congruence. by rewrite Hb in Hb'.
Qed.

(** C9, as the claim states it, fails: the widget holds two pages of
    history for [git]; a load with reset whose fetch rejects leaves no
    aggregate for [git], because the reset had deleted it before the
    fetch was issued and nothing puts it back. *)
Lemma C9_reset_then_rejection_loses_history :
  reachable offline_widget
  ∧ (λ a, timestamp <$> agg_items a) <$> timelinesBySource offline_widget !! "git"
    = Some [300; 250; 100]
  ∧ (loadTimelineForSource "git" file_uri true offline_widget).2 = Rejected "offline"
  ∧ timelinesBySource (loadTimelineForSource "git" file_uri true offline_widget).1 !! "git"
    = None.
Proof.
  split; [|vm_compute; done].
  unfold offline_widget, prior_widget.
  apply reach_register, reach_loadForSource, reach_loadForSource.
  exact (reach_register _ scenario_provider reach_new).
Qed.

(** C9, amended.  When a provider's fetch rejects: the request that
    [getTimeline] returned rejects with the same reason; the load of
    that source rejects with it too, renders nothing, and leaves every
    aggregate as it was when the fetch was issued: unmodified for a load
    without reset, and for a load with reset with the aggregate of the
    source deleted, as the reset left it before the fetch; and in the
    fan-out of [loadTimeLine] every registered source ends, in whatever
    order the calls resume, with the aggregate that its own load would
    have given it alone, and its own outcome. *)
Theorem C9_rejection_is_contained :
  (∀ s i u o p e,
     providers s !! i = Some p →
     scheme_mismatch (provider_scheme p) u = false →
     provideTimeline p u o = Rejected e →
     result <$> (getTimeline i u o s).2 = Some (Rejected e))
  ∧ (∀ w src u reset pd e,
       (loadTimelineForSource_begin src u reset w).2 = Some pd →
       result (pending_request pd) = Rejected e →
       (loadTimelineForSource src u reset w).2 = Rejected e
       ∧ timelinesBySource (loadTimelineForSource src u reset w).1
         = (if reset then delete src (timelinesBySource w) else timelinesBySource w)
       ∧ rendered (loadTimelineForSource src u reset w).1 = rendered w)
  ∧ (∀ w u reset order k,
       registry_wf (timelineService w) →
       order ≡ₚ (loadTimeLine u reset w).2 →
       is_Some (providers (timelineService w) !! k) →
       timelinesBySource (settle order (loadTimeLine u reset w).1).1 !! k
         = timelinesBySource (loadTimelineForSource k u reset w).1 !! k
       ∧ (is_Some (loadTimelineForSource_begin k u reset w).2 →
          (k, (loadTimelineForSource k u reset w).2)
            ∈ (settle order (loadTimeLine u reset w).1).2)).
Proof.
  split; [|split].
  - intros s i u o p e Hp Hs He.
    rewrite (getTimeline_invokes _ _ _ _ _ Hp Hs). simpl. by rewrite He.
  - intros w src u reset pd e Hb He. unfold loadTimelineForSource.
    pose proof (begin_store src u reset w) as Hst.
    pose proof (begin_rendered src u reset w) as Hrd.
    destruct (loadTimelineForSource_begin src u reset w) as [w1 o]. simpl in *. subst o.
    unfold loadTimelineForSource_resume. by rewrite He.
  - intros w u reset order k. apply fanout_source.
Qed.

Lemma C9_rejection_is_contained_witness :
  result <$> (getTimeline "svn" file_uri first_page_options
                (service_with [failing_provider])).2 = Some (Rejected "offline")
  ∧ ((loadTimelineForSource "git" file_uri false history_widget).2 = Rejected "offline"
     ∧ timelinesBySource (loadTimelineForSource "git" file_uri false history_widget).1
       = timelinesBySource history_widget
     ∧ rendered (loadTimelineForSource "git" file_uri false history_widget).1
       = rendered history_widget)
  ∧ ((loadTimelineForSource "git" file_uri true offline_widget).2 = Rejected "offline"
     ∧ timelinesBySource (loadTimelineForSource "git" file_uri true offline_widget).1
       = delete "git" (timelinesBySource offline_widget)
     ∧ rendered (loadTimelineForSource "git" file_uri true offline_widget).1
       = rendered offline_widget)
  ∧ (timelinesBySource
       (settle (reverse (loadTimeLine file_uri false history_widget).2)
          (loadTimeLine file_uri false history_widget).1).1 !! "hg"
       = timelinesBySource (loadTimelineForSource "hg" file_uri false history_widget).1 !! "hg"
     ∧ (is_Some (loadTimelineForSource_begin "hg" file_uri false history_widget).2 →
        ("hg", (loadTimelineForSource "hg" file_uri false history_widget).2)
          ∈ (settle (reverse (loadTimeLine file_uri false history_widget).2)
               (loadTimeLine file_uri false history_widget).1).2)).
Proof.
  split; [|split; [|split]].
  - apply (proj1 C9_rejection_is_contained (service_with [failing_provider])
             "svn" file_uri first_page_options failing_provider "offline"); reflexivity.
  - eapply (proj1 (proj2 C9_rejection_is_contained) history_widget "git" file_uri false);
      reflexivity.
  - eapply (proj1 (proj2 C9_rejection_is_contained) offline_widget "git" file_uri true);
      reflexivity.
  - apply (proj2 (proj2 C9_rejection_is_contained) history_widget file_uri false
             (reverse (loadTimeLine file_uri false history_widget).2) "hg").
    + apply (bool_decide_unpack _). vm_compute. exact I.
    + apply reverse_Permutation.
    + vm_compute. eexists. reflexivity.
Defined.

(** * Further properties of the code *)

(** ** TimelineAggregate.add *)

(** An item goes in front of exactly the items that are strictly more
    recent than it: among the items of one timestamp nothing moves. *)
Lemma sort_insert_filter (t : Z) (x : TimelineItem) (l : list TimelineItem) :
  filter (λ it, timestamp it = t) (sort_insert compareFn x l)
    = filter (λ it, timestamp it = t) (x :: l).
Proof.
  induction l as [|y l IH]; simpl; [done |].
  destruct (Z.leb_spec (compareFn x y) 0) as [H|H]; unfold compareFn in H; [done |].
  rewrite filter_cons, IH, !filter_cons.
  destruct (decide (timestamp y = t)), (decide (timestamp x = t)); try done. lia.
Qed.

(** Two insertions commute when the items have different timestamps. *)
Lemma sort_insert_comm (x y : TimelineItem) (l : list TimelineItem) :
  timestamp x < timestamp y →
  sort_insert compareFn y (sort_insert compareFn x l)
    = sort_insert compareFn x (sort_insert compareFn y l).
Proof.
  intros Hxy. induction l as [|z l IH]; simpl; unfold compareFn in *.
  - destruct (Z.leb_spec (timestamp x - timestamp y) 0),
             (Z.leb_spec (timestamp y - timestamp x) 0); try done; lia.
  - destruct (Z.leb_spec (timestamp z - timestamp x) 0),
             (Z.leb_spec (timestamp z - timestamp y) 0); simpl;
      repeat (match goal with
              | |- context [Z.leb ?a ?b] => destruct (Z.leb_spec a b)
              end; simpl); try done; try lia.
    f_equal. exact IH.
Qed.

Lemma array_sort_insert_app (x : TimelineItem) (s m : list TimelineItem) :
  array_sort compareFn (sort_insert compareFn x s ++ m)
    = sort_insert compareFn x (array_sort compareFn (s ++ m)).
Proof.
  induction s as [|y s IH]; simpl; [done |].
  destruct (Z.leb_spec (compareFn x y) 0) as [H|H]; unfold compareFn in H; simpl; [done |].
  rewrite IH. apply sort_insert_comm. lia.
Qed.

(** Sorting what was sorted before, with more items behind it, is
    sorting everything at once. *)
Lemma array_sort_app_sorted (l m : list TimelineItem) :
  array_sort compareFn (array_sort compareFn l ++ m) = array_sort compareFn (l ++ m).
Proof.
  induction l as [|x l IH]; simpl; [done |].
  by rewrite array_sort_insert_app, IH.
Qed.

(** X1.  [add] loses and invents nothing and leaves the items in
    descending order of timestamp; the source and the cursor stay. *)
Theorem add_sorted_permutation (xs : list TimelineItem) (a : TimelineAggregate) :
  sorted_desc (agg_items (add xs a))
  ∧ agg_items (add xs a) ≡ₚ agg_items a ++ xs
  ∧ length (agg_items (add xs a)) = (length (agg_items a) + length xs)%nat
  ∧ agg_source (add xs a) = agg_source a
  ∧ agg_cursor (add xs a) = agg_cursor a.
Proof.
  unfold add. simpl. split; [apply array_sort_sorted |].
  split; [apply array_sort_perm |]. split; [|done].
  by rewrite array_sort_perm, length_app.
Qed.

(** X2.  The sort of [add] is stable: the items of one timestamp stand,
    after [add], in the order in which they arrived (those of the
    aggregate first, then those of the page, each group in its own
    order). *)
Theorem add_keeps_arrival_order (t : Z) (xs : list TimelineItem) (a : TimelineAggregate) :
  filter (λ it, timestamp it = t) (agg_items (add xs a))
    = filter (λ it, timestamp it = t) (agg_items a)
      ++ filter (λ it, timestamp it = t) xs.
Proof.
  unfold add. simpl. rewrite <- filter_app.
  induction (agg_items a ++ xs) as [|x l IH]; simpl; [done |].
  by rewrite sort_insert_filter, !filter_cons, IH.
Qed.

(** X3.  Adding two pages one after the other gives the aggregate that
    adding them in one go gives. *)
Theorem add_add (xs ys : list TimelineItem) (a : TimelineAggregate) :
  add ys (add xs a) = add (xs ++ ys) a.
Proof.
  unfold add. simpl. by rewrite array_sort_app_sorted, app_assoc.
Qed.

(** ** The registry, continued *)

(** X4.  Unregistering an id that is not registered changes nothing and
    fires nothing; so a second [unregisterTimelineProvider] of the same
    id is without effect. *)
Theorem unregister_unknown_and_twice :
  (∀ s i, providers s !! i = None → unregisterTimelineProvider i s = s)
  ∧ (∀ s i, unregisterTimelineProvider i (unregisterTimelineProvider i s)
            = unregisterTimelineProvider i s).
Proof.
  assert (Hun : ∀ s i, providers s !! i = None → unregisterTimelineProvider i s = s).
  { intros s i H. unfold unregisterTimelineProvider. by rewrite H. }
  split; [done |]. intros s i. apply Hun.
  rewrite unregister_providers. apply lookup_delete_eq.
Qed.

Lemma unregister_unknown_and_twice_witness :
  unregisterTimelineProvider "svn" (service_with [unsorted_provider])
    = service_with [unsorted_provider].
Proof.
  apply (proj1 unregister_unknown_and_twice (service_with [unsorted_provider]) "svn").
  reflexivity.
Defined.

(** The fields of the service after an [unregisterTimelineProvider]
    that found the id. *)
Lemma unregister_present s i p :
  providers s !! i = Some p →
  providers (unregisterTimelineProvider i s) = delete i (providers s)
  ∧ providerSubscriptions (unregisterTimelineProvider i s)
    = delete i (providerSubscriptions s)
  ∧ providersChanged (unregisterTimelineProvider i s)
    = providersChanged s ++ [removed_event i]
  ∧ emitters (unregisterTimelineProvider i s) = emitters s
  ∧ disposeCalls (unregisterTimelineProvider i s) = disposeCalls s.
Proof. intros Hp. unfold unregisterTimelineProvider. by rewrite Hp. Qed.

(** X5.  Registering a provider under a free id and unregistering the
    id again gives back both maps; the two events [added] and [removed]
    were fired, no [dispose] was called, and the listener that the
    registration attached is still attached. *)
Theorem register_then_unregister s p :
  providers s !! provider_id p = None →
  providerSubscriptions s !! provider_id p = None →
  providers (unregisterTimelineProvider (provider_id p) (registerTimelineProvider p s).1)
    = providers s
  ∧ providerSubscriptions
      (unregisterTimelineProvider (provider_id p) (registerTimelineProvider p s).1)
    = providerSubscriptions s
  ∧ providersChanged
      (unregisterTimelineProvider (provider_id p) (registerTimelineProvider p s).1)
    = providersChanged s ++ [added_event (provider_id p); removed_event (provider_id p)]
  ∧ disposeCalls
      (unregisterTimelineProvider (provider_id p) (registerTimelineProvider p s).1)
    = disposeCalls s
  ∧ listeners_of (provider_obj p)
      (unregisterTimelineProvider (provider_id p) (registerTimelineProvider p s).1)
    = listeners_of (provider_obj p) s
        ++ (if onDidChange p then [next_disposable s] else []).
Proof.
  intros Hp Hsub.
  assert (Hs1 : providers (registerTimelineProvider p s).1 !! provider_id p = Some p).
  { rewrite register_providers. apply lookup_insert_eq. }
  destruct (unregister_present _ _ _ Hs1) as (-> & -> & -> & Hem & ->).
  unfold listeners_of. rewrite Hem.
  rewrite register_providers, register_subscriptions, register_providersChanged,
    register_disposeCalls, Hp, app_nil_r, <- app_assoc.
  split; [by apply delete_insert_id |].
  split. { destruct (onDidChange p); [by apply delete_insert_id | by apply delete_id]. }
  split; [done |]. split; [done |].
  rewrite register_emitters. unfold emitters_after_dispose.
  rewrite Hp. destruct (onDidChange p); [|by rewrite app_nil_r].
  by rewrite lookup_insert_eq.
Qed.

Lemma register_then_unregister_witness :
  providers (unregisterTimelineProvider (provider_id unsorted_provider)
               (registerTimelineProvider unsorted_provider newTimelineService).1)
    = providers newTimelineService
  ∧ providerSubscriptions
      (unregisterTimelineProvider (provider_id unsorted_provider)
         (registerTimelineProvider unsorted_provider newTimelineService).1)
    = providerSubscriptions newTimelineService
  ∧ providersChanged
      (unregisterTimelineProvider (provider_id unsorted_provider)
         (registerTimelineProvider unsorted_provider newTimelineService).1)
    = providersChanged newTimelineService
        ++ [added_event (provider_id unsorted_provider);
            removed_event (provider_id unsorted_provider)]
  ∧ disposeCalls
      (unregisterTimelineProvider (provider_id unsorted_provider)
         (registerTimelineProvider unsorted_provider newTimelineService).1)
    = disposeCalls newTimelineService
  ∧ listeners_of (provider_obj unsorted_provider)
      (unregisterTimelineProvider (provider_id unsorted_provider)
         (registerTimelineProvider unsorted_provider newTimelineService).1)
    = listeners_of (provider_obj unsorted_provider) newTimelineService
        ++ (if onDidChange unsorted_provider
            then [next_disposable newTimelineService] else []).
Proof.
  apply (register_then_unregister newTimelineService unsorted_provider); reflexivity.
Defined.

(** X6.  Revoking the handle of a registration removes the provider and
    leaves [providerSubscriptions] and every emitter alone: the
    subscription of a provider with a change event stays in the map
    under an id that has no provider any more. *)
Theorem revoke_keeps_subscription_entry s p :
  onDidChange p = true →
  providers (dispose_registration (registerTimelineProvider p s).2
               (registerTimelineProvider p s).1) !! provider_id p = None
  ∧ providerSubscriptions
      (dispose_registration (registerTimelineProvider p s).2
         (registerTimelineProvider p s).1) !! provider_id p
    = Some (next_disposable s)
  ∧ next_disposable s
    ∈ listeners_of (provider_obj p)
        (dispose_registration (registerTimelineProvider p s).2
           (registerTimelineProvider p s).1).
Proof.
  intros Hev. split; [apply lookup_delete_eq |]. split.
  - change (providerSubscriptions (registerTimelineProvider p s).1 !! provider_id p
            = Some (next_disposable s)).
    rewrite register_subscriptions, Hev. apply lookup_insert_eq.
  - change (next_disposable s
            ∈ listeners_of (provider_obj p) (registerTimelineProvider p s).1).
    by apply register_attaches.
Qed.

Lemma revoke_keeps_subscription_entry_witness :
  providers (dispose_registration (registerTimelineProvider unsorted_provider
                                     newTimelineService).2
               (registerTimelineProvider unsorted_provider newTimelineService).1)
    !! provider_id unsorted_provider = None
  ∧ providerSubscriptions
      (dispose_registration (registerTimelineProvider unsorted_provider
                               newTimelineService).2
         (registerTimelineProvider unsorted_provider newTimelineService).1)
      !! provider_id unsorted_provider
    = Some (next_disposable newTimelineService)
  ∧ next_disposable newTimelineService
    ∈ listeners_of (provider_obj unsorted_provider)
        (dispose_registration (registerTimelineProvider unsorted_provider
                                 newTimelineService).2
           (registerTimelineProvider unsorted_provider newTimelineService).1).
Proof.
  apply (revoke_keeps_subscription_entry newTimelineService unsorted_provider).
  reflexivity.
Defined.

(** X7.  In a registry keyed by provider id, [getSources] lists every
    registered id exactly once, each with the label of the provider
    that holds the id, and nothing else. *)
Theorem getSources_lists_registry s :
  registry_wf s →
  NoDup (source_id <$> getSources s)
  ∧ ∀ i l, {| source_id := i; source_label := l |} ∈ getSources s
           ↔ ∃ p, providers s !! i = Some p ∧ provider_label p = l.
Proof.
  intros Hwf. split; [by apply getSources_NoDup |].
  intros i l. unfold getSources. rewrite list_elem_of_fmap. split.
  - intros (p & [= -> ->] & ((k & p') & -> & Hkp%elem_of_map_to_list)%list_elem_of_fmap).
    simpl. exists p'. split; [|done]. by rewrite (Hwf _ _ Hkp).
  - intros (p & Hp & <-). exists p. split; [by rewrite (Hwf _ _ Hp) |].
    apply list_elem_of_fmap. exists (i, p). split; [done |]. by apply elem_of_map_to_list.
Qed.

Lemma getSources_lists_registry_witness :
  NoDup (source_id <$> getSources (service_with [flaky_provider; working_provider]))
  ∧ ∀ i l, {| source_id := i; source_label := l |}
             ∈ getSources (service_with [flaky_provider; working_provider])
           ↔ ∃ p, providers (service_with [flaky_provider; working_provider]) !! i = Some p
                  ∧ provider_label p = l.
Proof.
  apply (getSources_lists_registry (service_with [flaky_provider; working_provider])).
  apply (bool_decide_unpack _). vm_compute. exact I.
Defined.

Lemma fires_appends obj e s :
  timelineChanged (provider_fires obj e s)
    = timelineChanged s ++ replicate (length (listeners_of obj s)) e.
Proof.
  unfold provider_fires. cbn [timelineChanged]. f_equal.
  induction (listeners_of obj s) as [|h l IH]; [done |].
  rewrite fmap_cons. cbn [length replicate]. by f_equal.
Qed.

(** X8.  Registering the same provider object a second time subscribes
    to its change event a second time.  When the provider's [dispose]
    leaves its listeners attached, every event the provider fires
    afterwards is forwarded to [onDidChangeTimeline] twice. *)
Theorem register_same_provider_twice s p e :
  onDidChange p = true →
  providers s !! provider_id p = None →
  listeners_of (provider_obj p) s = [] →
  (∀ l, (dispose p l).1 = l) →
  listeners_of (provider_obj p)
    (registerTimelineProvider p (registerTimelineProvider p s).1).1
    = [next_disposable s; S (next_disposable s)]
  ∧ timelineChanged
      (provider_fires (provider_obj p) e
         (registerTimelineProvider p (registerTimelineProvider p s).1).1)
    = timelineChanged s ++ [e; e].
Proof.
  intros Hev Hfresh Hnone Hdisp.
  assert (Hnext : next_disposable (registerTimelineProvider p s).1 = S (next_disposable s)).
  { unfold registerTimelineProvider. rewrite Hev, Hfresh. done. }
  assert (H1 : listeners_of (provider_obj p) (registerTimelineProvider p s).1
               = [next_disposable s]).
  { unfold listeners_of at 1. rewrite register_emitters, Hev. unfold emitters_after_dispose.
    rewrite Hfresh, lookup_insert_eq.
    change (default [] (emitters s !! provider_obj p)) with (listeners_of (provider_obj p) s).
    by rewrite Hnone. }
  assert (H2 : listeners_of (provider_obj p)
                 (registerTimelineProvider p (registerTimelineProvider p s).1).1
               = [next_disposable s; S (next_disposable s)]).
  { unfold listeners_of at 1. rewrite register_emitters, Hev. unfold emitters_after_dispose.
    rewrite register_providers, lookup_insert_eq, !lookup_insert_eq.
    cbn [default]. by rewrite Hdisp, H1, Hnext. }
  split; [done |].
  by rewrite fires_appends, H2, !register_timelineChanged.
Qed.

Lemma register_same_provider_twice_witness :
  listeners_of (provider_obj unsorted_provider)
    (registerTimelineProvider unsorted_provider
       (registerTimelineProvider unsorted_provider newTimelineService).1).1
    = [next_disposable newTimelineService; S (next_disposable newTimelineService)]
  ∧ timelineChanged
      (provider_fires (provider_obj unsorted_provider) change_event
         (registerTimelineProvider unsorted_provider
            (registerTimelineProvider unsorted_provider newTimelineService).1).1)
    = timelineChanged newTimelineService ++ [change_event; change_event].
Proof.
  apply (register_same_provider_twice newTimelineService unsorted_provider change_event);
    reflexivity.
Defined.

(** ** getTimeline, continued *)

Lemma scheme_mismatch_false sch u :
  scheme_mismatch sch u = false
  ↔ match sch with
    | SchemeString s => s = "*" ∨ s = scheme u
    | SchemeArray _ => True
    end.
Proof.
  destruct sch as [s|l]; simpl; [|done].
  rewrite andb_false_iff, !bool_decide_eq_false.
  split; intros [H|H]; [left | right | left | right];
    try (by apply dec_stable); by intros ?.
Qed.

(** X9.  [getTimeline] returns a request exactly when the id is
    registered and the provider's scheme is an array (of whatever
    content), the wildcard, or the scheme of the URI.  The provider is
    then called once, and otherwise the service is left as it was. *)
Theorem getTimeline_request_iff i u o s :
  (is_Some (getTimeline i u o s).2
   ↔ ∃ p, providers s !! i = Some p
          ∧ match provider_scheme p with
            | SchemeString sch => sch = "*" ∨ sch = scheme u
            | SchemeArray _ => True
            end)
  ∧ (getTimeline i u o s).1
    = match (getTimeline i u o s).2, providers s !! i with
      | Some _, Some p => log_provide (provider_obj p, u, o) s
      | _, _ => s
      end.
Proof.
  split.
  - unfold getTimeline. destruct (providers s !! i) as [p|] eqn:Hp; simpl.
    + destruct (scheme_mismatch (provider_scheme p) u) eqn:Hm; simpl.
      * split; [by intros [? ?] |]. intros (p' & [= <-] & Hsch).
        apply scheme_mismatch_false in Hsch. congruence.
      * split; [|by eexists]. intros _. exists p. split; [done |].
        by apply scheme_mismatch_false.
    + split; [by intros [? ?] | by intros (? & ? & _)].
  - unfold getTimeline. destruct (providers s !! i) as [p|]; [|done].
    by destruct (scheme_mismatch _ _).
Qed.

(** X10.  The page that [getTimeline] hands back is the provider's page
    with the [source] of each item replaced: the same number of items
    in the same order, every other field of every item, the paging and
    the page's own [source] as the provider gave them. *)
Theorem getTimeline_alters_item_source_only i u o s req t :
  (getTimeline i u o s).2 = Some req →
  result req = Resolved (Some t) →
  ∃ p raw,
    providers s !! i = Some p
    ∧ provideTimeline p u o = Resolved (Some raw)
    ∧ timeline_source t = timeline_source raw
    ∧ paging t = paging raw
    ∧ Forall2 (λ a b, a = {| handle := handle b; timestamp := timestamp b;
                             label := label b; id := id b;
                             description := description b; detail := detail b;
                             command := command b; contextValue := contextValue b;
                             source := Some (provider_id p) |})
        (items t) (items raw).
Proof.
  intros Hreq Hres. destruct (getTimeline_request _ _ _ _ _ Hreq) as (p & Hp & _ & ->).
  simpl in Hres. exists p.
  destruct (provideTimeline p u o) as [[raw|]|e] eqn:Hraw; simpl in Hres; try done.
  exists raw. injection Hres as <-. simpl. repeat split; try done.
  apply Forall2_fmap_l, Forall_Forall2_diag, Forall_true. done.
Qed.

Lemma getTimeline_alters_item_source_only_witness :
  ∃ p raw,
    providers (service_with [spoofing_provider]) !! "git" = Some p
    ∧ provideTimeline p file_uri first_page_options = Resolved (Some raw)
    ∧ timeline_source {| timeline_source := "elsewhere"; paging := None;
                         items := stamp "git" <$> [item_at 5] |}
      = timeline_source raw
    ∧ paging {| timeline_source := "elsewhere"; paging := None;
                items := stamp "git" <$> [item_at 5] |} = paging raw
    ∧ Forall2 (λ a b, a = {| handle := handle b; timestamp := timestamp b;
                             label := label b; id := id b;
                             description := description b; detail := detail b;
                             command := command b; contextValue := contextValue b;
                             source := Some (provider_id p) |})
        (items {| timeline_source := "elsewhere"; paging := None;
                  items := stamp "git" <$> [item_at 5] |}) (items raw).
Proof.
  eapply (getTimeline_alters_item_source_only "git" file_uri first_page_options
            (service_with [spoofing_provider])); reflexivity.
Defined.

(** X11.  Once a provider is registered, a request under its id for a
    URI it applies to is answered by this provider, also when it took
    the id from another one; the call is logged with its object. *)
Theorem register_then_getTimeline s p u o :
  scheme_mismatch (provider_scheme p) u = false →
  (getTimeline (provider_id p) u o (registerTimelineProvider p s).1).2
    = Some {| result := stamp_result (provider_id p) (provideTimeline p u o);
              request_options := o; request_source := provider_id p;
              request_uri := u |}
  ∧ provideCalls (getTimeline (provider_id p) u o (registerTimelineProvider p s).1).1
    = provideCalls s ++ [(provider_obj p, u, o)].
Proof.
  intros Hs.
  assert (Hp : providers (registerTimelineProvider p s).1 !! provider_id p = Some p).
  { rewrite register_providers. apply lookup_insert_eq. }
  rewrite (getTimeline_invokes _ _ _ _ _ Hp Hs). simpl. split; [done |].
  f_equal. unfold registerTimelineProvider. simpl.
  destruct (onDidChange p); destruct (providers s !! provider_id p); done.
Qed.

Lemma register_then_getTimeline_witness :
  (getTimeline (provider_id replacement_provider) file_uri first_page_options
     (registerTimelineProvider replacement_provider
        (service_with [unsorted_provider])).1).2
    = Some {| result := stamp_result (provider_id replacement_provider)
                          (provideTimeline replacement_provider file_uri first_page_options);
              request_options := first_page_options;
              request_source := provider_id replacement_provider;
              request_uri := file_uri |}
  ∧ provideCalls
      (getTimeline (provider_id replacement_provider) file_uri first_page_options
         (registerTimelineProvider replacement_provider
            (service_with [unsorted_provider])).1).1
    = provideCalls (service_with [unsorted_provider])
        ++ [(provider_obj replacement_provider, file_uri, first_page_options)].
Proof.
  apply (register_then_getTimeline (service_with [unsorted_provider])
           replacement_provider file_uri first_page_options).
  reflexivity.
Defined.

(** X12.  After [unregisterTimelineProvider(id)], and after the handle
    of a registration of [id] was revoked, [getTimeline] for the id
    returns no request and calls no provider. *)
Theorem removed_provider_is_not_asked i u o :
  (∀ s, getTimeline i u o (unregisterTimelineProvider i s)
        = (unregisterTimelineProvider i s, None))
  ∧ (∀ s, getTimeline i u o (dispose_registration {| registration_id := i |} s)
          = (dispose_registration {| registration_id := i |} s, None)).
Proof.
  split; intros s; apply getTimeline_unknown.
  - rewrite unregister_providers. apply lookup_delete_eq.
  - apply lookup_delete_eq.
Qed.

(** ** Single loads *)

(** The call that a load makes on an applicable provider. *)
Lemma load_provideCalls w src u reset p :
  providers (timelineService w) !! src = Some p →
  scheme_mismatch (provider_scheme p) u = false →
  provideCalls (timelineService (loadTimelineForSource src u reset w).1)
    = provideCalls (timelineService w)
        ++ [(provider_obj p, u,
             {| cursor := if reset then None else timelinesBySource w !! src ≫= agg_cursor;
                limit := Some (LimitCount PAGE_SIZE) |})].
Proof.
  intros Hp Hs. unfold loadTimelineForSource, loadTimelineForSource_begin.
  rewrite (getTimeline_invokes _ _ _ _ _ Hp Hs). cbn [fmap option_fmap option_map].
  rewrite resume_service. simpl. by destruct reset.
Qed.

(** X13.  A load asks the provider for [PAGE_SIZE] items from the cursor
    that the aggregate of the source holds: no cursor after a reset,
    without an aggregate, and when the last page had none. *)
Theorem load_sends_stored_cursor w src u reset p :
  providers (timelineService w) !! src = Some p →
  scheme_mismatch (provider_scheme p) u = false →
  provideCalls (timelineService (loadTimelineForSource src u reset w).1)
    = provideCalls (timelineService w)
        ++ [(provider_obj p, u,
             {| cursor := if reset then None else timelinesBySource w !! src ≫= agg_cursor;
                limit := Some (LimitCount 20) |})].
Proof. apply load_provideCalls. Qed.

Lemma load_sends_stored_cursor_witness :
  provideCalls (timelineService (loadTimelineForSource "git" file_uri false prior_widget).1)
    = provideCalls (timelineService prior_widget)
        ++ [(provider_obj scenario_provider, file_uri,
             {| cursor := if false then None
                          else timelinesBySource prior_widget !! "git" ≫= agg_cursor;
                limit := Some (LimitCount 20) |})].
Proof.
  apply (load_sends_stored_cursor prior_widget "git" file_uri false scenario_provider);
    reflexivity.
Defined.

(** The aggregate of the source after a load that received a page
    carries the cursor of the page. *)
Lemma load_page_cursor w src u reset pd t :
  (loadTimelineForSource_begin src u reset w).2 = Some pd →
  result (pending_request pd) = Resolved (Some t) →
  ∃ a, timelinesBySource (loadTimelineForSource src u reset w).1 !! src = Some a
       ∧ agg_cursor a = paging_cursor t.
Proof.
  intros Hb Hr. unfold loadTimelineForSource.
  destruct (begin_source _ _ _ _ _ Hb) as [Hsrc _].
  destruct (loadTimelineForSource_begin src u reset w) as [w1 o]. simpl in *. subst o.
  rewrite <- Hsrc, (resume_page _ _ _ Hr). eexists. split; [done |].
  by destruct (pending_timeline pd).
Qed.

(** X14.  Pagination: when a load has received a page, the next load of
    the source without reset, for whatever URI, asks the provider with
    the cursor of that page. *)
Theorem next_load_sends_page_cursor w src u1 u2 reset p pd t :
  providers (timelineService w) !! src = Some p →
  scheme_mismatch (provider_scheme p) u2 = false →
  (loadTimelineForSource_begin src u1 reset w).2 = Some pd →
  result (pending_request pd) = Resolved (Some t) →
  provideCalls
    (timelineService
       (loadTimelineForSource src u2 false (loadTimelineForSource src u1 reset w).1).1)
    = provideCalls (timelineService (loadTimelineForSource src u1 reset w).1)
        ++ [(provider_obj p, u2,
             {| cursor := paging_cursor t; limit := Some (LimitCount PAGE_SIZE) |})].
Proof.
  intros Hp Hs Hb Hr.
  destruct (load_page_cursor w src u1 reset pd t Hb Hr) as (a & Ha & Hc).
  rewrite (load_provideCalls _ src u2 false p); [by rewrite Ha; simpl; rewrite Hc | | done].
  unfold loadTimelineForSource. pose proof (begin_providers u1 reset src w) as Hpr.
  destruct (loadTimelineForSource_begin src u1 reset w) as [w1 [pd'|]]; simpl in *;
    [rewrite resume_service |]; congruence.
Qed.

Lemma next_load_sends_page_cursor_witness :
  provideCalls
    (timelineService
       (loadTimelineForSource "git" other_file_uri false
          (loadTimelineForSource "git" file_uri true (widget_with [scenario_provider])).1).1)
    = provideCalls
        (timelineService
           (loadTimelineForSource "git" file_uri true (widget_with [scenario_provider])).1)
        ++ [(provider_obj scenario_provider, other_file_uri,
             {| cursor := paging_cursor
                            {| timeline_source := "git"; paging := Some (Some "c1");
                               items := stamp "git" <$> (item_at <$> [300; 100]) |};
                limit := Some (LimitCount PAGE_SIZE) |})].
Proof.
  eapply (next_load_sends_page_cursor (widget_with [scenario_provider]) "git"
            file_uri other_file_uri true scenario_provider); reflexivity.
Defined.

(** X15.  A load with reset that receives no page (the source is not
    applicable, the provider has no result, or its fetch rejects) has
    discarded the aggregate of the source all the same, and renders
    nothing. *)
Theorem reset_without_page_discards w src u :
  (∀ pd t, (loadTimelineForSource_begin src u true w).2 = Some pd →
           result (pending_request pd) ≠ Resolved (Some t)) →
  timelinesBySource (loadTimelineForSource src u true w).1
    = delete src (timelinesBySource w)
  ∧ rendered (loadTimelineForSource src u true w).1 = rendered w.
Proof.
  intros Hno. unfold loadTimelineForSource.
  pose proof (begin_store src u true w) as Hst.
  pose proof (begin_rendered src u true w) as Hrd.
  destruct (loadTimelineForSource_begin src u true w) as [w1 [pd|]]; simpl in *; [|done].
  unfold loadTimelineForSource_resume.
  destruct (result (pending_request pd)) as [[t|]|e] eqn:Hr; [|done..].
  by destruct (Hno pd t eq_refl).
Qed.

Lemma reset_without_page_discards_witness :
  timelinesBySource (loadTimelineForSource "git" http_uri true prior_widget).1
    = delete "git" (timelinesBySource prior_widget)
  ∧ rendered (loadTimelineForSource "git" http_uri true prior_widget).1
    = rendered prior_widget.
Proof.
  apply (reset_without_page_discards prior_widget "git" http_uri).
  intros pd t Hb. vm_compute in Hb. discriminate.
Defined.

Lemma getTimeline_frame i u o s :
  providers (getTimeline i u o s).1 = providers s
  ∧ providerSubscriptions (getTimeline i u o s).1 = providerSubscriptions s
  ∧ emitters (getTimeline i u o s).1 = emitters s
  ∧ providersChanged (getTimeline i u o s).1 = providersChanged s
  ∧ timelineChanged (getTimeline i u o s).1 = timelineChanged s
  ∧ disposeCalls (getTimeline i u o s).1 = disposeCalls s.
Proof.
  unfold getTimeline. destruct (providers s !! i) as [p|]; [|done].
  by destruct (scheme_mismatch _ _).
Qed.

(** X16.  A load of one source leaves the aggregates of all other
    sources as they were, and of the service it changes nothing but the
    log of provider calls: no registration, subscription, listener or
    event. *)
Theorem load_touches_own_source_only w src u reset :
  (∀ k, k ≠ src →
        timelinesBySource (loadTimelineForSource src u reset w).1 !! k
        = timelinesBySource w !! k)
  ∧ providers (timelineService (loadTimelineForSource src u reset w).1)
    = providers (timelineService w)
  ∧ providerSubscriptions (timelineService (loadTimelineForSource src u reset w).1)
    = providerSubscriptions (timelineService w)
  ∧ emitters (timelineService (loadTimelineForSource src u reset w).1)
    = emitters (timelineService w)
  ∧ providersChanged (timelineService (loadTimelineForSource src u reset w).1)
    = providersChanged (timelineService w)
  ∧ timelineChanged (timelineService (loadTimelineForSource src u reset w).1)
    = timelineChanged (timelineService w).
Proof.
  assert (Hsvc : ∃ i o, timelineService (loadTimelineForSource src u reset w).1
                        = (getTimeline i u o (timelineService w)).1).
  { unfold loadTimelineForSource, loadTimelineForSource_begin.
    match goal with |- context [getTimeline ?i ?u ?o ?s] =>
      exists i, o; destruct (getTimeline i u o s) as [s' [r|]] end; simpl;
      [by rewrite resume_service | done]. }
  destruct Hsvc as (i & o & ->).
  destruct (getTimeline_frame i u o (timelineService w)) as (-> & -> & -> & -> & -> & _).
  split; [|done].
  intros k Hk. unfold loadTimelineForSource.
  pose proof (begin_store src u reset w) as Hst.
  destruct (loadTimelineForSource_begin src u reset w) as [w1 [pd|]] eqn:Hb; simpl in *.
  - assert (Hsrc : pending_source pd = src).
    { eapply begin_source. by rewrite Hb. }
    rewrite resume_lookup, decide_False, Hst by congruence.
    destruct reset; [by rewrite lookup_delete_ne | done].
  - rewrite Hst. destruct reset; [by rewrite lookup_delete_ne | done].
Qed.

Lemma load_touches_own_source_only_witness :
  timelinesBySource (loadTimelineForSource "hg" file_uri true history_widget).1 !! "git"
    = timelinesBySource history_widget !! "git".
Proof.
  apply (proj1 (load_touches_own_source_only history_widget "hg" file_uri true) "git").
  discriminate.
Defined.

(** X17.  A load without reset that receives a page for a source with
    an aggregate appends: the items are those it had together with
    those of the page, all of them (items that were there already are
    there twice), in descending order of timestamp; the cursor is the
    page's, and the [source] of the aggregate stays that of its first
    page. *)
Theorem load_appends_page w src u p a t :
  providers (timelineService w) !! src = Some p →
  scheme_mismatch (provider_scheme p) u = false →
  timelinesBySource w !! src = Some a →
  provideTimeline p u {| cursor := agg_cursor a; limit := Some (LimitCount PAGE_SIZE) |}
    = Resolved (Some t) →
  ∃ b, timelinesBySource (loadTimelineForSource src u false w).1 !! src = Some b
       ∧ agg_items b ≡ₚ agg_items a ++ (stamp (provider_id p) <$> items t)
       ∧ length (agg_items b) = (length (agg_items a) + length (items t))%nat
       ∧ sorted_desc (agg_items b)
       ∧ agg_cursor b = paging_cursor t
       ∧ agg_source b = agg_source a.
Proof.
  intros Hp Hs Ha Ht. unfold loadTimelineForSource, loadTimelineForSource_begin.
  rewrite Ha. simpl. rewrite (getTimeline_invokes _ _ _ _ _ Hp Hs). simpl.
  unfold loadTimelineForSource_resume. simpl. rewrite Ht. simpl.
  rewrite lookup_insert_eq. eexists. split; [done |]. simpl.
  split; [apply array_sort_perm |].
  split; [by rewrite array_sort_perm, length_app, length_fmap |].
  split; [apply array_sort_sorted | done].
Qed.

Lemma load_appends_page_witness :
  ∃ b, timelinesBySource (loadTimelineForSource "git" file_uri false prior_widget).1 !! "git"
         = Some b
       ∧ agg_items b
         ≡ₚ agg_items {| agg_items := stamp "git" <$> (item_at <$> [300; 250; 100]);
                         agg_source := "git"; agg_cursor := None |}
            ++ (stamp (provider_id scenario_provider)
                  <$> items (page "git" (Some "c1") [300; 100]))
       ∧ length (agg_items b)
         = Nat.add
             (length (agg_items {| agg_items := stamp "git" <$> (item_at <$> [300; 250; 100]);
                                   agg_source := "git"; agg_cursor := None |}))
             (length (items (page "git" (Some "c1") [300; 100])))
       ∧ sorted_desc (agg_items b)
       ∧ agg_cursor b = paging_cursor (page "git" (Some "c1") [300; 100])
       ∧ agg_source b
         = agg_source {| agg_items := stamp "git" <$> (item_at <$> [300; 250; 100]);
                         agg_source := "git"; agg_cursor := None |}.
Proof.
  apply (load_appends_page prior_widget "git" file_uri scenario_provider
           {| agg_items := stamp "git" <$> (item_at <$> [300; 250; 100]);
              agg_source := "git"; agg_cursor := None |}
           (page "git" (Some "c1") [300; 100])); reflexivity.
Defined.

(** X18.  Once a provider is unregistered, a load of its source without
    reset does nothing: the aggregate with its history stays in the
    widget, no provider is called, nothing is rendered. *)
Theorem unregistered_source_keeps_history w i u :
  timelinesBySource
    (loadTimelineForSource i u false (on_service (unregisterTimelineProvider i) w)).1
    = timelinesBySource w
  ∧ rendered
      (loadTimelineForSource i u false (on_service (unregisterTimelineProvider i) w)).1
    = rendered w
  ∧ provideCalls
      (timelineService
         (loadTimelineForSource i u false (on_service (unregisterTimelineProvider i) w)).1)
    = provideCalls (timelineService w).
Proof.
  unfold loadTimelineForSource, loadTimelineForSource_begin. simpl.
  rewrite getTimeline_unknown by (rewrite unregister_providers; apply lookup_delete_eq).
  simpl.
  split; [done |]. split; [done |].
  unfold unregisterTimelineProvider. by destruct (providers (timelineService w) !! i).
Qed.

(** ** The fan-out, continued *)

Lemma begin_pending_iff src u reset w :
  is_Some (loadTimelineForSource_begin src u reset w).2
  ↔ ∃ p, providers (timelineService w) !! src = Some p
         ∧ scheme_mismatch (provider_scheme p) u = false.
Proof.
  unfold loadTimelineForSource_begin.
  match goal with |- context [getTimeline ?i ?u ?o ?s] =>
    pose proof (getTimeline_request i u o s) as Hreq;
    pose proof (getTimeline_invokes i u o s) as Hinv;
    destruct (getTimeline i u o s) as [s' r] end.
  simpl in *. split.
  - intros [pd Hpd]. destruct r as [req|]; [|done].
    destruct (Hreq req eq_refl) as (p & Hp & Hs & _). by exists p.
  - intros (p & Hp & Hs). specialize (Hinv p Hp Hs). injection Hinv as _ ->. by eexists.
Qed.

Lemma begin_calls_length src u reset w :
  length (provideCalls (timelineService (loadTimelineForSource_begin src u reset w).1))
  = (length (provideCalls (timelineService w))
     + length (option_list (loadTimelineForSource_begin src u reset w).2))%nat.
Proof.
  unfold loadTimelineForSource_begin, getTimeline.
  destruct (providers (timelineService w) !! src) as [p|]; simpl; [|lia].
  destruct (scheme_mismatch _ _); simpl; [lia |].
  rewrite length_app. simpl. lia.
Qed.

Lemma loop_calls_length srcs u reset w :
  length (provideCalls (timelineService (loadTimeLine_loop srcs u reset w).1))
  = (length (provideCalls (timelineService w))
     + length (loadTimeLine_loop srcs u reset w).2)%nat.
Proof.
  revert w. induction srcs as [|src rest IH]; intros w; simpl; [lia |].
  pose proof (begin_calls_length src u reset w) as Hb.
  destruct (loadTimelineForSource_begin src u reset w) as [w1 p]. simpl in *.
  specialize (IH w1). destruct (loadTimeLine_loop rest u reset w1) as [w2 ps]. simpl in *.
  rewrite length_app. lia.
Qed.

(** X19.  [loadTimeLine] calls every registered provider that applies
    to the URI exactly once and no other: the calls left waiting are
    one per such provider, and the log of provider calls has grown by
    their number. *)
Theorem loadTimeLine_asks_each_applicable_once w u reset :
  registry_wf (timelineService w) →
  NoDup (pending_source <$> (loadTimeLine u reset w).2)
  ∧ (∀ k, k ∈ pending_source <$> (loadTimeLine u reset w).2
          ↔ ∃ p, providers (timelineService w) !! k = Some p
                 ∧ scheme_mismatch (provider_scheme p) u = false)
  ∧ length (provideCalls (timelineService (loadTimeLine u reset w).1))
    = (length (provideCalls (timelineService w)) + length (loadTimeLine u reset w).2)%nat.
Proof.
  intros Hwf. unfold loadTimeLine.
  set (srcs := source_id <$> getSources (timelineService w)).
  destruct (loop_spec u reset srcs w) as (_ & _ & Hps).
  split; [|split].
  - rewrite Hps. apply pending_sources_NoDup. by apply getSources_NoDup.
  - intros k. rewrite Hps, <- begin_pending_iff, list_elem_of_fmap. split.
    + intros (pd & -> & (src & _ & Hb)%list_elem_of_omap).
      destruct (begin_source _ _ _ _ _ Hb) as [-> _]. by rewrite Hb.
    + intros Hsome. pose proof Hsome as [pd Hb]. exists pd.
      destruct (begin_source _ _ _ _ _ Hb) as [Hsrc _].
      split; [done |]. apply list_elem_of_omap. exists k. split; [|done].
      apply getSources_elem; [done |].
      apply begin_pending_iff in Hsome as (p & Hp & _). by exists p.
  - apply loop_calls_length.
Qed.

Lemma loadTimeLine_asks_each_applicable_once_witness :
  NoDup (pending_source <$> (loadTimeLine file_uri true history_widget).2)
  ∧ (∀ k, k ∈ pending_source <$> (loadTimeLine file_uri true history_widget).2
          ↔ ∃ p, providers (timelineService history_widget) !! k = Some p
                 ∧ scheme_mismatch (provider_scheme p) file_uri = false)
  ∧ length (provideCalls (timelineService (loadTimeLine file_uri true history_widget).1))
    = (length (provideCalls (timelineService history_widget))
       + length (loadTimeLine file_uri true history_widget).2)%nat.
Proof.
  apply (loadTimeLine_asks_each_applicable_once history_widget file_uri true).
  apply (bool_decide_unpack _). vm_compute. exact I.
Defined.

(** The fan-out does not touch the entry of an id without provider. *)
Lemma fanout_unregistered u reset w order k :
  registry_wf (timelineService w) →
  order ≡ₚ (loadTimeLine u reset w).2 →
  providers (timelineService w) !! k = None →
  timelinesBySource (settle order (loadTimeLine u reset w).1).1 !! k
    = timelinesBySource w !! k.
Proof.
  intros Hwf Hperm Hk. unfold loadTimeLine in *.
  set (srcs := source_id <$> getSources (timelineService w)) in *.
  destruct (loop_spec u reset srcs w) as (_ & Hstore & Hps).
  assert (Hnin : k ∉ srcs).
  { subst srcs. rewrite getSources_ids by done.
    intros ((k' & p) & -> & Hkp%elem_of_map_to_list)%list_elem_of_fmap.
    simpl in Hk. congruence. }
  rewrite settle_lookup_other.
  - by rewrite Hstore, decide_False.
  - intros pd Hpd Hsrc. rewrite Hperm, Hps in Hpd.
    apply list_elem_of_omap in Hpd as (src & Hin & Hb).
    destruct (begin_source _ _ _ _ _ Hb) as [Hsrc' _]. congruence.
Qed.

(** X20.  [loadTimeLine], with or without reset, never touches the
    aggregate of a source that has no registered provider: the history
    of a provider that was unregistered stays in the widget. *)
Theorem loadTimeLine_keeps_unregistered_aggregates u reset w order k :
  registry_wf (timelineService w) →
  order ≡ₚ (loadTimeLine u reset w).2 →
  providers (timelineService w) !! k = None →
  timelinesBySource (settle order (loadTimeLine u reset w).1).1 !! k
    = timelinesBySource w !! k.
Proof. apply fanout_unregistered. Qed.

Lemma loadTimeLine_keeps_unregistered_aggregates_witness :
  timelinesBySource
    (settle (loadTimeLine file_uri true
               (on_service (unregisterTimelineProvider "git") history_widget)).2
       (loadTimeLine file_uri true
          (on_service (unregisterTimelineProvider "git") history_widget)).1).1 !! "git"
    = timelinesBySource (on_service (unregisterTimelineProvider "git") history_widget)
        !! "git".
Proof.
  apply (loadTimeLine_keeps_unregistered_aggregates file_uri true
           (on_service (unregisterTimelineProvider "git") history_widget)).
  - apply (bool_decide_unpack _). vm_compute. exact I.
  - reflexivity.
  - reflexivity.
Defined.

(** X21.  The order in which the calls of one [loadTimeLine] resume has
    no influence on the aggregates: any two orders end with the same
    map. *)
Theorem loadTimeLine_order_irrelevant u reset w order1 order2 :
  registry_wf (timelineService w) →
  order1 ≡ₚ (loadTimeLine u reset w).2 →
  order2 ≡ₚ (loadTimeLine u reset w).2 →
  timelinesBySource (settle order1 (loadTimeLine u reset w).1).1
    = timelinesBySource (settle order2 (loadTimeLine u reset w).1).1.
Proof.
  intros Hwf H1 H2. apply map_eq. intros k.
  destruct (providers (timelineService w) !! k) as [p|] eqn:Hp.
  - destruct (fanout_source u reset w order1 k Hwf H1) as [-> _]; [by eexists |].
    by destruct (fanout_source u reset w order2 k Hwf H2) as [-> _]; [by eexists |].
  - by rewrite !fanout_unregistered.
Qed.

Lemma loadTimeLine_order_irrelevant_witness :
  timelinesBySource
    (settle (loadTimeLine file_uri false history_widget).2
       (loadTimeLine file_uri false history_widget).1).1
    = timelinesBySource
        (settle (reverse (loadTimeLine file_uri false history_widget).2)
           (loadTimeLine file_uri false history_widget).1).1.
Proof.
  apply (loadTimeLine_order_irrelevant file_uri false history_widget).
  - apply (bool_decide_unpack _). vm_compute. exact I.
  - reflexivity.
  - apply reverse_Permutation.
Defined.

(** ** An invariant of the render log *)

Lemma resume_rendered_length pd w :
  (length (rendered (loadTimelineForSource_resume pd w).1) ≤ S (length (rendered w)))%nat.
Proof.
  unfold loadTimelineForSource_resume.
  destruct (result (pending_request pd)) as [[t|]|e]; simpl; [|lia..].
  rewrite length_app. simpl. lia.
Qed.

Lemma loop_rendered srcs u reset w :
  rendered (loadTimeLine_loop srcs u reset w).1 = rendered w.
Proof.
  revert w. induction srcs as [|src rest IH]; intros w; simpl; [done |].
  pose proof (begin_rendered src u reset w) as Hb.
  destruct (loadTimelineForSource_begin src u reset w) as [w1 p]. simpl in *.
  specialize (IH w1). destruct (loadTimeLine_loop rest u reset w1) as [w2 ps]. simpl in *.
  congruence.
Qed.

Lemma settle_rendered_length order w :
  (length (rendered (settle order w).1) ≤ length (rendered w) + length order)%nat
  ∧ timelineService (settle order w).1 = timelineService w.
Proof.
  revert w. induction order as [|pd rest IH]; intros w; simpl; [split; [lia | done] |].
  pose proof (resume_rendered_length pd w) as Hr.
  pose proof (resume_service pd w) as Hs.
  destruct (loadTimelineForSource_resume pd w) as [w1 r]. simpl in *.
  destruct (IH w1) as [IH1 IH2]. destruct (settle rest w1) as [w2 rs]. simpl in *.
  split; [lia | congruence].
Qed.

Lemma register_provideCalls p s :
  provideCalls (registerTimelineProvider p s).1 = provideCalls s.
Proof.
  unfold registerTimelineProvider. simpl.
  destruct (onDidChange p); destruct (providers s !! provider_id p); done.
Qed.

Lemma unregister_provideCalls i s :
  provideCalls (unregisterTimelineProvider i s) = provideCalls s.
Proof. unfold unregisterTimelineProvider. by destruct (providers s !! i). Qed.

(** X22.  The tree model is handed items only after a provider was
    asked: in every state the widget reaches, there are at most as many
    render calls as provider calls. *)
Theorem renders_never_exceed_provider_calls w :
  reachable w →
  (length (rendered w) ≤ length (provideCalls (timelineService w)))%nat.
Proof.
  induction 1 as [|w p _ IH|w i _ IH|w r _ IH|w obj e _ IH
                  |w src u reset _ IH|w u reset order _ IH Hperm];
    unfold on_service; cbn [rendered timelineService].
  - simpl. lia.
  - by rewrite register_provideCalls.
  - by rewrite unregister_provideCalls.
  - done.
  - done.
  - unfold loadTimelineForSource.
    pose proof (begin_calls_length src u reset w) as Hc.
    pose proof (begin_rendered src u reset w) as Hr.
    destruct (loadTimelineForSource_begin src u reset w) as [w1 [pd|]]; simpl in *.
    + pose proof (resume_rendered_length pd w1) as Hl.
      rewrite resume_service. rewrite Hr in Hl. lia.
    + rewrite Hr. lia.
  - unfold loadTimeLine in *.
    set (srcs := source_id <$> getSources (timelineService w)) in *.
    pose proof (loop_calls_length srcs u reset w) as Hc.
    pose proof (loop_rendered srcs u reset w) as Hr.
    destruct (settle_rendered_length order (loadTimeLine_loop srcs u reset w).1)
      as [Hl ->].
    pose proof (Permutation_length Hperm) as Hlen. rewrite Hr in Hl. lia.
Qed.

Lemma renders_never_exceed_provider_calls_witness :
  (length (rendered spoofed_widget)
   ≤ length (provideCalls (timelineService spoofed_widget)))%nat.
Proof.
  apply (renders_never_exceed_provider_calls spoofed_widget).
  apply reach_loadForSource, reach_register, reach_new.
Defined.

(** ** renderNode and the context menu *)

Lemma find_first {A} (f : A → bool) (l : list A) :
  match List.find f l with
  | Some x => ∃ l1 l2, l = l1 ++ x :: l2 ∧ f x = true ∧ Forall (λ y, f y = false) l1
  | None => Forall (λ y, f y = false) l
  end.
Proof.
  induction l as [|y l IH]; simpl; [constructor |].
  destruct (f y) eqn:Hy.
  - exists [], l. by repeat split.
  - destruct (List.find f l) as [x|].
    + destruct IH as (l1 & l2 & -> & Hx & Hl1). exists (y :: l1), l2.
      repeat split; [done |]. by constructor.
    + by constructor.
Qed.

(** What [find_item] returns. *)
Lemma find_item_shape node w :
  match find_item node w with
  | Some it =>
      ∃ a l1 l2, timelinesBySource w !! node_source node = Some a
                 ∧ agg_items a = l1 ++ it :: l2
                 ∧ id it = Some (node_id node)
                 ∧ Forall (λ x, id x ≠ Some (node_id node)) l1
  | None =>
      ∀ a, timelinesBySource w !! node_source node = Some a →
           Forall (λ x, id x ≠ Some (node_id node)) (agg_items a)
  end.
Proof.
  unfold find_item. destruct (timelinesBySource w !! node_source node) as [a|]; simpl; [|done].
  pose proof (find_first (λ i, bool_decide (id i = Some (node_id node))) (agg_items a)) as H.
  destruct (List.find _ (agg_items a)) as [it|].
  - destruct H as (l1 & l2 & Hl & Hit%bool_decide_eq_true & Hl1).
    exists a, l1, l2. repeat split; try done.
    eapply Forall_impl; [exact Hl1 |]. intros x Hx. by apply bool_decide_eq_false in Hx.
  - intros a' [= <-]. eapply Forall_impl; [exact H |].
    intros x Hx. by apply bool_decide_eq_false in Hx.
Qed.

(** X23.  The item that [renderNode] hands to a node is the first item
    of the aggregate of the node's source whose [id] is the node's id.
    There is none when the source has no aggregate or no item has that
    id; an item without [id] is never handed to any node. *)
Theorem find_item_first_match node w :
  match find_item node w with
  | Some it =>
      ∃ a l1 l2, timelinesBySource w !! node_source node = Some a
                 ∧ agg_items a = l1 ++ it :: l2
                 ∧ id it = Some (node_id node)
                 ∧ Forall (λ x, id x ≠ Some (node_id node)) l1
  | None =>
      ∀ a, timelinesBySource w !! node_source node = Some a →
           Forall (λ x, id x ≠ Some (node_id node)) (agg_items a)
  end.
Proof. apply find_item_shape. Qed.

(** X24.  In every state the widget reaches, the item handed to a node
    comes from the provider of the node's source: its [source] is the
    node's. *)
Theorem found_item_has_node_source node w it :
  reachable w → find_item node w = Some it → source it = Some (node_source node).
Proof.
  intros Hw Hf. pose proof (find_item_shape node w) as H. rewrite Hf in H.
  destruct H as (a & l1 & l2 & Ha & Hl & _).
  destruct (reachable_inv w Hw) as [_ Hst]. specialize (Hst _ _ Ha).
  rewrite Hl in Hst. apply Forall_app in Hst as [_ Hst]. by inversion Hst.
Qed.

Lemma found_item_has_node_source_witness :
  source (stamp "git" (item_with_id "b" 10)) = Some (node_source (node_for "git" "b")).
Proof.
  apply (found_item_has_node_source (node_for "git" "b") identified_widget).
  - apply reach_loadForSource, reach_register, reach_new.
  - reflexivity.
Defined.

(** X25.  However many context menus are opened, and whether or not
    the renderer throws, the context key [timelineItem] has afterwards
    the value it had before; every menu was rendered once, under the
    context value of its own node. *)
Theorem context_menus_restore_key (calls : list (Props * option string)) st :
  timelineItem (foldl (λ s c, (renderContextMenu c.1 c.2 s).1) st calls) = timelineItem st
  ∧ menu_timelineItem
      <$> menus (foldl (λ s c, (renderContextMenu c.1 c.2 s).1) st calls)
    = (menu_timelineItem <$> menus st) ++ (props_contextValue ∘ fst <$> calls)
  ∧ menu_arg_handle
      <$> menus (foldl (λ s c, (renderContextMenu c.1 c.2 s).1) st calls)
    = (menu_arg_handle <$> menus st) ++ ((λ c, handle <$> props_item c.1) <$> calls).
Proof.
  revert st. induction calls as [|[props throws] calls IH]; intros st.
  - simpl. by rewrite !app_nil_r.
  - cbn [foldl fst snd]. destruct (IH (renderContextMenu props throws st).1) as (-> & -> & ->).
    simpl. by rewrite !fmap_app, <- !app_assoc.
Qed.

(** ** TimelineWidget *)

Lemma begin_reset_pending src u w pd :
  (loadTimelineForSource_begin src u true w).2 = Some pd →
  pending_timeline pd = None
  ∧ request_options (pending_request pd) = first_page_options
  ∧ pending_uri pd = u.
Proof.
  unfold loadTimelineForSource_begin. rewrite lookup_delete_eq. simpl.
  fold first_page_options.
  pose proof (getTimeline_request src u first_page_options (timelineService w)) as Hreq.
  destruct (getTimeline src u first_page_options (timelineService w)) as [s' [r|]];
    simpl; [|done].
  intros [= <-]. simpl. destruct (Hreq r eq_refl) as (p & _ & _ & ->). done.
Qed.

(** X26.  When an editor on a [file] resource becomes current, the tree
    is shown and the empty widget hidden, the aggregate of every
    registered source is discarded, and every provider that applies is
    asked once for its first page (no cursor, [PAGE_SIZE] items). *)
Theorem file_editor_restarts_every_source u mainPanel tw :
  scheme u = "file" →
  registry_wf (timelineService (resourceWidget tw)) →
  resourceWidget_hidden (onCurrentEditorChanged (Some (Some u)) mainPanel tw).1 = false
  ∧ timelineEmptyWidget_hidden (onCurrentEditorChanged (Some (Some u)) mainPanel tw).1 = true
  ∧ (∀ k, is_Some (providers (timelineService (resourceWidget tw)) !! k) →
          timelinesBySource
            (resourceWidget (onCurrentEditorChanged (Some (Some u)) mainPanel tw).1) !! k
          = None)
  ∧ NoDup (pending_source <$> (onCurrentEditorChanged (Some (Some u)) mainPanel tw).2)
  ∧ (∀ k, k ∈ pending_source <$> (onCurrentEditorChanged (Some (Some u)) mainPanel tw).2
          ↔ ∃ p, providers (timelineService (resourceWidget tw)) !! k = Some p
                 ∧ scheme_mismatch (provider_scheme p) u = false)
  ∧ Forall (λ pd, pending_timeline pd = None
                  ∧ request_options (pending_request pd) = first_page_options
                  ∧ pending_uri pd = u)
      (onCurrentEditorChanged (Some (Some u)) mainPanel tw).2.
Proof.
  intros Hfile Hwf. unfold onCurrentEditorChanged.
  rewrite bool_decide_eq_true_2 by done.
  unfold loadTimeLine.
  set (srcs := source_id <$> getSources (timelineService (resourceWidget tw))).
  destruct (loop_spec u true srcs (resourceWidget tw)) as (_ & Hstore & Hps).
  destruct (loadTimeLine_loop srcs u true (resourceWidget tw)) as [w' ps] eqn:Hloop.
  simpl in *. split; [done |]. split; [done |]. split; [|split; [|split]].
  - intros k Hk. rewrite Hstore, decide_True; [done |]. by apply getSources_elem.
  - rewrite Hps. apply pending_sources_NoDup. by apply getSources_NoDup.
  - intros k. rewrite Hps, <- (begin_pending_iff k u true), list_elem_of_fmap. split.
    + intros (pd & -> & (src & _ & Hb)%list_elem_of_omap).
      destruct (begin_source _ _ _ _ _ Hb) as [-> _]. by rewrite Hb.
    + intros Hsome. pose proof Hsome as [pd Hb]. exists pd.
      destruct (begin_source _ _ _ _ _ Hb) as [Hsrc _].
      split; [done |]. apply list_elem_of_omap. exists k. split; [|done].
      apply getSources_elem; [done |].
      apply begin_pending_iff in Hsome as (p & Hp & _). by exists p.
  - rewrite Hps. apply Forall_forall. intros pd (src & _ & Hb)%list_elem_of_omap.
    by eapply begin_reset_pending.
Qed.

Lemma file_editor_restarts_every_source_witness :
  resourceWidget_hidden
    (onCurrentEditorChanged (Some (Some file_uri)) [] history_timeline_widget).1 = false
  ∧ timelineEmptyWidget_hidden
      (onCurrentEditorChanged (Some (Some file_uri)) [] history_timeline_widget).1 = true
  ∧ (∀ k, is_Some (providers (timelineService (resourceWidget history_timeline_widget)) !! k) →
          timelinesBySource
            (resourceWidget
               (onCurrentEditorChanged (Some (Some file_uri)) [] history_timeline_widget).1)
            !! k = None)
  ∧ NoDup (pending_source
             <$> (onCurrentEditorChanged (Some (Some file_uri)) []
                    history_timeline_widget).2)
  ∧ (∀ k, k ∈ pending_source
               <$> (onCurrentEditorChanged (Some (Some file_uri)) []
                      history_timeline_widget).2
          ↔ ∃ p, providers (timelineService (resourceWidget history_timeline_widget)) !! k
                   = Some p
                 ∧ scheme_mismatch (provider_scheme p) file_uri = false)
  ∧ Forall (λ pd, pending_timeline pd = None
                  ∧ request_options (pending_request pd) = first_page_options
                  ∧ pending_uri pd = file_uri)
      (onCurrentEditorChanged (Some (Some file_uri)) [] history_timeline_widget).2.
Proof.
  apply (file_editor_restarts_every_source file_uri [] history_timeline_widget).
  - reflexivity.
  - apply (bool_decide_unpack _). vm_compute. exact I.
Defined.

(** X27.  Any other change of the current editor asks no provider and
    changes no aggregate.  With a current editor, and with none while an
    editor on a [file] resource is left in the main panel, nothing
    changes at all.  With no current editor and no editor on a [file]
    resource in the main panel, the tree is hidden and the empty widget
    shown. *)
Theorem other_editor_change_loads_nothing editor mainPanel tw :
  (∀ u, editor = Some (Some u) → scheme u ≠ "file") →
  (onCurrentEditorChanged editor mainPanel tw).2 = []
  ∧ resourceWidget (onCurrentEditorChanged editor mainPanel tw).1 = resourceWidget tw
  ∧ (is_Some editor → (onCurrentEditorChanged editor mainPanel tw).1 = tw)
  ∧ (editor = None →
     Exists (λ wdg, is_file_editor wdg = true) mainPanel →
     (onCurrentEditorChanged editor mainPanel tw).1 = tw)
  ∧ (editor = None →
     Forall (λ wdg, is_file_editor wdg = false) mainPanel →
     (onCurrentEditorChanged editor mainPanel tw).1
     = {| resourceWidget := resourceWidget tw;
          resourceWidget_hidden := true;
          timelineEmptyWidget_hidden := false |}).
Proof.
  intros Hnf. unfold onCurrentEditorChanged. destruct editor as [[u|]|].
  - rewrite bool_decide_eq_false_2 by by apply Hnf.
    repeat split; try done; by intros [? ?]%is_Some_None.
  - repeat split; try done; by intros [? ?]%is_Some_None.
  - pose proof (find_first is_file_editor mainPanel) as Hfind.
    destruct (List.find is_file_editor mainPanel) as [x|]; simpl.
    + destruct Hfind as (l1 & l2 & -> & Hx & _).
      split; [done |]. split; [done |]. split; [done |]. split; [done |].
      intros _ Hall. apply Forall_app in Hall as [_ Hall].
      inversion Hall; congruence.
    + split; [done |]. split; [done |]. split; [by intros [? ?] |]. split; [|done].
      intros _ Hex. apply Exists_exists in Hex as (x & Hin & Hx).
      rewrite Forall_forall in Hfind. rewrite (Hfind x Hin) in Hx. done.
Qed.

Lemma other_editor_change_loads_nothing_witness :
  (onCurrentEditorChanged None [OtherWidget; EditorWidget (Some http_uri); EditorWidget None]
     shown_timeline_widget).2 = []
  ∧ (onCurrentEditorChanged None
       [OtherWidget; EditorWidget (Some http_uri); EditorWidget None]
       shown_timeline_widget).1
    = {| resourceWidget := resourceWidget shown_timeline_widget;
         resourceWidget_hidden := true;
         timelineEmptyWidget_hidden := false |}
  ∧ (onCurrentEditorChanged None [OtherWidget; EditorWidget (Some file_uri)]
       shown_timeline_widget).1 = shown_timeline_widget
  ∧ (onCurrentEditorChanged (Some (Some http_uri)) [] shown_timeline_widget).1
    = shown_timeline_widget.
Proof.
  assert (Hnone : ∀ u : URI, @None (option URI) = Some (Some u) → scheme u ≠ "file")
    by (intros u [=]).
  assert (Hhttp : ∀ u : URI, Some (Some http_uri) = Some (Some u) → scheme u ≠ "file")
    by (intros u [= <-]; discriminate).
  destruct (other_editor_change_loads_nothing None
              [OtherWidget; EditorWidget (Some http_uri); EditorWidget None]
              shown_timeline_widget Hnone) as (H1 & _ & _ & _ & H2).
  destruct (other_editor_change_loads_nothing None
              [OtherWidget; EditorWidget (Some file_uri)]
              shown_timeline_widget Hnone) as (_ & _ & _ & H3 & _).
  destruct (other_editor_change_loads_nothing (Some (Some http_uri)) []
              shown_timeline_widget Hhttp) as (_ & _ & H4 & _).
  split; [exact H1 |]. split; [|split].
  - apply H2; [reflexivity |]. repeat constructor.
  - apply H3; [reflexivity |]. apply Exists_cons_tl, Exists_cons_hd. reflexivity.
  - apply H4. by eexists.
Defined.

(** X28.  A change event is loaded for the URI it names, whatever the
    current editor is.  An event that names no URI, or the empty
    string, is loaded for the resource of the current editor, and the
    two are handled alike.  Such an event is dropped when there is no
    current editor or the current editor has no resource.  Every load
    is a [loadTimeLine] with the [reset] of the event, and what is
    shown does not change. *)
Theorem change_event_target parse_uri event tw :
  (∀ s ce1 ce2,
     change_uri event = Some s → s ≠ "" →
     onDidChangeTimeline_listener parse_uri ce1 event tw
     = onDidChangeTimeline_listener parse_uri ce2 event tw
     ∧ (onDidChangeTimeline_listener parse_uri ce1 event tw).2
       = (loadTimeLine (parse_uri s) (change_reset event) (resourceWidget tw)).2
     ∧ (onDidChangeTimeline_listener parse_uri ce1 event tw).1
       = {| resourceWidget :=
              (loadTimeLine (parse_uri s) (change_reset event) (resourceWidget tw)).1;
            resourceWidget_hidden := resourceWidget_hidden tw;
            timelineEmptyWidget_hidden := timelineEmptyWidget_hidden tw |})
  ∧ (∀ ce,
       onDidChangeTimeline_listener parse_uri ce
         {| change_id := change_id event; change_uri := Some "";
            change_reset := change_reset event |} tw
       = onDidChangeTimeline_listener parse_uri ce
           {| change_id := change_id event; change_uri := None;
              change_reset := change_reset event |} tw)
  ∧ (∀ u,
       (change_uri event = None ∨ change_uri event = Some "") →
       (onDidChangeTimeline_listener parse_uri (Some (Some u)) event tw).2
       = (loadTimeLine u (change_reset event) (resourceWidget tw)).2
       ∧ (onDidChangeTimeline_listener parse_uri (Some (Some u)) event tw).1
         = {| resourceWidget := (loadTimeLine u (change_reset event) (resourceWidget tw)).1;
              resourceWidget_hidden := resourceWidget_hidden tw;
              timelineEmptyWidget_hidden := timelineEmptyWidget_hidden tw |})
  ∧ (∀ ce,
       (change_uri event = None ∨ change_uri event = Some "") →
       (ce = None ∨ ce = Some None) →
       onDidChangeTimeline_listener parse_uri ce event tw = (tw, [])).
Proof.
  split; [|split; [|split]].
  - intros s ce1 ce2 Hs Hne. unfold onDidChangeTimeline_listener.
    rewrite Hs, bool_decide_eq_true_2 by done.
    split; [done |]. by destruct (loadTimeLine _ _ _).
  - done.
  - intros u Hev. unfold onDidChangeTimeline_listener.
    destruct Hev as [-> | ->]; simpl; by destruct (loadTimeLine _ _ _).
  - intros ce Hev Hce. unfold onDidChangeTimeline_listener.
    destruct Hev as [-> | ->], Hce as [-> | ->]; done.
Qed.

Lemma change_event_target_witness :
  (onDidChangeTimeline_listener (λ _, file_uri) None
     {| change_id := "git"; change_uri := Some "file:///a.txt"; change_reset := false |}
     history_timeline_widget
   = onDidChangeTimeline_listener (λ _, file_uri) (Some (Some http_uri))
       {| change_id := "git"; change_uri := Some "file:///a.txt"; change_reset := false |}
       history_timeline_widget
   ∧ (onDidChangeTimeline_listener (λ _, file_uri) None
        {| change_id := "git"; change_uri := Some "file:///a.txt"; change_reset := false |}
        history_timeline_widget).2
     = (loadTimeLine file_uri false (resourceWidget history_timeline_widget)).2
   ∧ (onDidChangeTimeline_listener (λ _, file_uri) None
        {| change_id := "git"; change_uri := Some "file:///a.txt"; change_reset := false |}
        history_timeline_widget).1
     = {| resourceWidget :=
            (loadTimeLine file_uri false (resourceWidget history_timeline_widget)).1;
          resourceWidget_hidden := resourceWidget_hidden history_timeline_widget;
          timelineEmptyWidget_hidden :=
            timelineEmptyWidget_hidden history_timeline_widget |})
  ∧ ((onDidChangeTimeline_listener (λ _, http_uri) (Some (Some file_uri)) change_event
        history_timeline_widget).2
     = (loadTimeLine file_uri (change_reset change_event)
          (resourceWidget history_timeline_widget)).2
     ∧ (onDidChangeTimeline_listener (λ _, http_uri) (Some (Some file_uri)) change_event
          history_timeline_widget).1
       = {| resourceWidget :=
              (loadTimeLine file_uri (change_reset change_event)
                 (resourceWidget history_timeline_widget)).1;
            resourceWidget_hidden := resourceWidget_hidden history_timeline_widget;
            timelineEmptyWidget_hidden :=
              timelineEmptyWidget_hidden history_timeline_widget |})
  ∧ length (onDidChangeTimeline_listener (λ _, http_uri) (Some (Some file_uri)) change_event
              history_timeline_widget).2 = 2%nat
  ∧ onDidChangeTimeline_listener (λ _, file_uri) (Some None) change_event
      history_timeline_widget = (history_timeline_widget, []).
Proof.
  split; [|split; [|split]].
  - apply (proj1 (change_event_target (λ _, file_uri)
                    {| change_id := "git"; change_uri := Some "file:///a.txt";
                       change_reset := false |} history_timeline_widget)
             "file:///a.txt" None (Some (Some http_uri))); [reflexivity | discriminate].
  - apply (proj1 (proj2 (proj2 (change_event_target (λ _, http_uri) change_event
                                  history_timeline_widget))) file_uri).
    by left.
  - vm_compute. reflexivity.
  - apply (proj2 (proj2 (proj2 (change_event_target (λ _, file_uri) change_event
                                  history_timeline_widget))) (Some None));
      [by left | by right].
Defined.

Lemma find_item_first_match_witness :
  ∃ a l1 l2, timelinesBySource identified_widget !! node_source (node_for "git" "b") = Some a
             ∧ agg_items a = l1 ++ stamp "git" (item_with_id "b" 10) :: l2
             ∧ id (stamp "git" (item_with_id "b" 10)) = Some (node_id (node_for "git" "b"))
             ∧ Forall (λ x, id x ≠ Some (node_id (node_for "git" "b"))) l1.
Proof. exact (find_item_first_match (node_for "git" "b") identified_widget). Defined.
